(** * NFCReader: the scan screen of [src/screens/NFCReaderScreen.tsx]

    A shallow embedding of the component's tag parser ([parseCardData],
    [maskCardNumber]) and of its scan life cycle ([checkNfcSupport],
    [startScan], [cancelScan], [cleanUpNfc]) as an event-driven transition
    system over the four [useState] cells and a fake of the NFC manager.
    An [async] function is cut at its [await]s: each synchronous segment is
    one function on the state, and the event that resumes it (a promise
    resolving or rejecting, a button press) is one turn of the event loop.
    The system covers the component from mount to unmount. *)

From Stdlib Require Import Bool Arith ZArith List String Ascii Lia.
Import ListNotations.

Local Open Scope string_scope.

(** ** JavaScript values and completions *)

Module Js.

(** What a [throw] carries, as far as [err instanceof Error ? err.message : ...]
    can tell. *)
Inductive Thrown : Type :=
| ErrorObj (message : string)
| NonError.

(** The outcome of evaluating an expression: a value, or an exception. *)
Inductive Completion (A : Type) : Type :=
| Normal (a : A)
| Throw (e : Thrown).
Arguments Normal {A} a.
Arguments Throw {A} e.

Definition bind {A B : Type} (c : Completion A) (k : A -> Completion B)
  : Completion B :=
  match c with
  | Normal a => k a
  | Throw e => Throw e
  end.

Definition returns {A : Type} (c : Completion A) : Prop :=
  exists a, c = Normal a.

(** [ToBoolean] on [string | undefined]: [undefined] and the empty string
    are falsy. *)
Definition truthy (v : option string) : bool :=
  match v with
  | Some s => negb (s =? "")
  | None => false
  end.

(** [v || d] on [string | undefined]. *)
Definition or_string (v : option string) (d : string) : string :=
  match v with
  | Some s => if truthy v then s else d
  | None => d
  end.

(** [v || d] on [string[] | undefined]: every array is truthy. *)
Definition or_array {A : Type} (v : option (list A)) (d : list A) : list A :=
  match v with
  | Some l => l
  | None => d
  end.

(** [String.prototype.slice(start)] with the end omitted. A string is its
    sequence of code units. *)
Definition slice (s : string) (start : Z) : string :=
  let len := Z.of_nat (String.length s) in
  let from := if (start <? 0)%Z then Z.max (len + start) 0 else Z.min start len in
  let span := Z.max (len - from) 0 in
  substring (Z.to_nat from) (Z.to_nat span) s.

(** The method call [v.slice(start)] on [string | undefined]: a property
    read on [undefined] throws a [TypeError]. *)
Definition call_slice (v : option string) (start : Z) : Completion string :=
  match v with
  | Some s => Normal (slice s start)
  | None => Throw (ErrorObj "Cannot read properties of undefined (reading 'slice')")
  end.

End Js.

Notation "x <- c ;; k" := (Js.bind c (fun x => k))
  (at level 61, c at next level, right associativity).

(** ** Data *)

(** [TagEvent] of react-native-nfc-manager, the fields the screen reads
    ([id?: string], [techTypes?: string[]], [type?: string]). *)
Record TagEvent : Type := {
  tag_id : option string;
  tag_techTypes : option (list string);
  tag_type : option string
}.

(** [interface CardData]. *)
Record CardData : Type := {
  id : string;
  techTypes : list string;
  type : string;
  cardNumber : string;
  scannedAt : string
}.

(** ** Tag parser *)

(** [maskCardNumber]. *)
Definition maskCardNumber (id : option string) : Js.Completion string :=
  if negb (Js.truthy id) then Js.Normal "****"
  else
    lastFour <- Js.call_slice id (-4) ;;
    Js.Normal ("**** **** **** " ++ lastFour).

(** [parseCardData]; [now] is the reading of [new Date().toLocaleString()]. *)
Definition parseCardData (now : string) (tag : TagEvent) : Js.Completion CardData :=
  masked <- maskCardNumber (tag_id tag) ;;
  Js.Normal {|
    id := Js.or_string (tag_id tag) "N/A";
    techTypes := Js.or_array (tag_techTypes tag) [];
    type := Js.or_string (tag_type tag) "Unknown";
    cardNumber := masked;
    scannedAt := now
  |}.

(** ** The NFC manager, as a recording fake

    [NfcManager] is an external collaborator. The fake counts the acquisition
    calls ([requestTechnology]) and the release calls
    ([cancelTechnologyRequest]) and tracks the reservation of the radio: it is
    reserved from an acquisition call until the next release call. Releasing
    is accepted whether or not the radio is reserved. *)

Record Hardware : Type := {
  held : bool;
  acquireCalls : nat;
  releaseCalls : nat
}.

Definition requestTechnology (h : Hardware) : Hardware :=
  {| held := true;
     acquireCalls := S (acquireCalls h);
     releaseCalls := releaseCalls h |}.

Definition cancelTechnologyRequest (h : Hardware) : Hardware :=
  {| held := false;
     acquireCalls := acquireCalls h;
     releaseCalls := S (releaseCalls h) |}.

(** ** Component state *)

(** Where [checkNfcSupport] is suspended: at [await NfcManager.isSupported()],
    at [await NfcManager.start()], or finished. *)
Inductive SupportCheck : Type :=
| AwaitingProbe
| AwaitingInit
| CheckDone.

(** The four [useState] cells, the fake, the suspended [async] calls and the
    titles of the alerts shown so far (latest first). [awaitingTech] counts
    the [startScan] calls suspended at [await NfcManager.requestTechnology],
    [awaitingTag] those suspended at [await NfcManager.getTag()]. *)
Record State : Type := {
  isScanning : bool;
  nfcSupported : bool;
  cardData : option CardData;
  error : option string;
  hw : Hardware;
  support : SupportCheck;
  awaitingTech : nat;
  awaitingTag : nat;
  alerts : list string
}.

Definition setIsScanning (b : bool) (s : State) : State :=
  {| isScanning := b; nfcSupported := nfcSupported s; cardData := cardData s;
     error := error s; hw := hw s; support := support s;
     awaitingTech := awaitingTech s; awaitingTag := awaitingTag s;
     alerts := alerts s |}.

Definition setNfcSupported (b : bool) (s : State) : State :=
  {| isScanning := isScanning s; nfcSupported := b; cardData := cardData s;
     error := error s; hw := hw s; support := support s;
     awaitingTech := awaitingTech s; awaitingTag := awaitingTag s;
     alerts := alerts s |}.

Definition setCardData (d : option CardData) (s : State) : State :=
  {| isScanning := isScanning s; nfcSupported := nfcSupported s; cardData := d;
     error := error s; hw := hw s; support := support s;
     awaitingTech := awaitingTech s; awaitingTag := awaitingTag s;
     alerts := alerts s |}.

Definition setError (e : option string) (s : State) : State :=
  {| isScanning := isScanning s; nfcSupported := nfcSupported s;
     cardData := cardData s; error := e; hw := hw s; support := support s;
     awaitingTech := awaitingTech s; awaitingTag := awaitingTag s;
     alerts := alerts s |}.

Definition withHardware (f : Hardware -> Hardware) (s : State) : State :=
  {| isScanning := isScanning s; nfcSupported := nfcSupported s;
     cardData := cardData s; error := error s; hw := f (hw s);
     support := support s;
     awaitingTech := awaitingTech s; awaitingTag := awaitingTag s;
     alerts := alerts s |}.

Definition setSupport (c : SupportCheck) (s : State) : State :=
  {| isScanning := isScanning s; nfcSupported := nfcSupported s;
     cardData := cardData s; error := error s; hw := hw s; support := c;
     awaitingTech := awaitingTech s; awaitingTag := awaitingTag s;
     alerts := alerts s |}.

Definition setSuspended (tech tag : nat) (s : State) : State :=
  {| isScanning := isScanning s; nfcSupported := nfcSupported s;
     cardData := cardData s; error := error s; hw := hw s;
     support := support s;
     awaitingTech := tech; awaitingTag := tag;
     alerts := alerts s |}.

(** [Alert.alert(title, ...)]. *)
Definition alert (title : string) (s : State) : State :=
  {| isScanning := isScanning s; nfcSupported := nfcSupported s;
     cardData := cardData s; error := error s; hw := hw s;
     support := support s;
     awaitingTech := awaitingTech s; awaitingTag := awaitingTag s;
     alerts := title :: alerts s |}.

(** The component once mounted: the initial values of the [useState] cells,
    and the mount effect has called [checkNfcSupport], which is suspended at
    the capability probe. *)
Definition mounted : State :=
  {| isScanning := false; nfcSupported := true; cardData := None;
     error := None;
     hw := {| held := false; acquireCalls := 0; releaseCalls := 0 |};
     support := AwaitingProbe;
     awaitingTech := 0; awaitingTag := 0;
     alerts := [] |}.

(** ** The handlers, one definition per synchronous segment *)

(** [cleanUpNfc]: the release call; a rejection is caught and logged. *)
Definition cleanUpNfc (s : State) : State :=
  withHardware cancelTechnologyRequest s.

(** [checkNfcSupport] resumed with the probe's answer. *)
Definition checkNfcSupport_probed (supported : bool) (s : State) : State :=
  let s := setNfcSupported supported s in
  if supported then setSupport AwaitingInit s
  else setSupport CheckDone (alert "NFC Not Supported" s).

(** [checkNfcSupport]'s [catch]: the probe or [NfcManager.start()] rejected. *)
Definition checkNfcSupport_catch (s : State) : State :=
  setSupport CheckDone (setNfcSupported false s).

(** [startScan] up to its first [await]. *)
Definition startScan (s : State) : State :=
  if negb (nfcSupported s) then alert "Error" s
  else
    let s := setIsScanning true s in
    let s := setError None s in
    let s := setCardData None s in
    let s := withHardware requestTechnology s in
    setSuspended (S (awaitingTech s)) (awaitingTag s) s.

(** [startScan]'s [catch] block. *)
Definition startScan_catch (err : Js.Thrown) (s : State) : State :=
  let errorMessage :=
    match err with
    | Js.ErrorObj message => message
    | Js.NonError => "Failed to read NFC tag"
    end in
  alert "Scan Failed" (setError (Some errorMessage) s).

(** [startScan]'s [finally] block. *)
Definition startScan_finally (s : State) : State :=
  cleanUpNfc (setIsScanning false s).

(** [startScan] resumed after [getTag()] answered [tag]. *)
Definition startScan_gotTag (now : string) (tag : option TagEvent) (s : State)
  : State :=
  let s :=
    match tag with
    | Some t =>
        match parseCardData now t with
        | Js.Normal parsedData => alert "Success" (setCardData (Some parsedData) s)
        | Js.Throw err => startScan_catch err s
        end
    | None => s
    end in
  startScan_finally s.

(** [startScan] resumed with a rejection of either [await]. *)
Definition startScan_rejected (err : Js.Thrown) (s : State) : State :=
  startScan_finally (startScan_catch err s).

(** [cancelScan]. *)
Definition cancelScan (s : State) : State :=
  cleanUpNfc (setIsScanning false s).

(** ** Events and runs *)

Inductive Event : Type :=
| ProbeResolved (supported : bool)      (* isSupported() resolves *)
| ProbeRejected                         (* isSupported() rejects *)
| InitResolved                          (* NfcManager.start() resolves *)
| InitRejected                          (* NfcManager.start() rejects *)
| PressStart                            (* onPress={startScan} *)
| PressCancel                           (* onPress={cancelScan} *)
| TechResolved                          (* a requestTechnology wait resolves *)
| TechRejected (err : Js.Thrown)        (* a requestTechnology wait rejects *)
| TagRead (now : string) (tag : option TagEvent)  (* getTag() resolves *)
| TagRejected (err : Js.Thrown).        (* getTag() rejects *)

(** One turn of the event loop. A resolution needs a call suspended on it. *)
Definition step (s : State) (ev : Event) : option State :=
  match ev with
  | ProbeResolved supported =>
      match support s with
      | AwaitingProbe => Some (checkNfcSupport_probed supported s)
      | _ => None
      end
  | ProbeRejected =>
      match support s with
      | AwaitingProbe => Some (checkNfcSupport_catch s)
      | _ => None
      end
  | InitResolved =>
      match support s with
      | AwaitingInit => Some (setSupport CheckDone s)
      | _ => None
      end
  | InitRejected =>
      match support s with
      | AwaitingInit => Some (checkNfcSupport_catch s)
      | _ => None
      end
  | PressStart => Some (startScan s)
  | PressCancel => Some (cancelScan s)
  | TechResolved =>
      match awaitingTech s with
      | S n => Some (setSuspended n (S (awaitingTag s)) s)
      | O => None
      end
  | TechRejected err =>
      match awaitingTech s with
      | S n => Some (startScan_rejected err (setSuspended n (awaitingTag s) s))
      | O => None
      end
  | TagRead now tag =>
      match awaitingTag s with
      | S n => Some (startScan_gotTag now tag (setSuspended (awaitingTech s) n s))
      | O => None
      end
  | TagRejected err =>
      match awaitingTag s with
      | S n => Some (startScan_rejected err (setSuspended (awaitingTech s) n s))
      | O => None
      end
  end.

Fixpoint run (s : State) (evs : list Event) : option State :=
  match evs with
  | [] => Some s
  | ev :: evs' =>
      match step s ev with
      | Some s' => run s' evs'
      | None => None
      end
  end.

(** The buttons of the rendered screen: nothing to press for the scan when
    [!nfcSupported]; the Cancel button while [isScanning], the Start button
    otherwise. *)
Definition offered (s : State) (ev : Event) : bool :=
  match ev with
  | PressStart => nfcSupported s && negb (isScanning s)
  | PressCancel => nfcSupported s && isScanning s
  | _ => true
  end.

(** A turn in which presses come from the rendered screen only. *)
Definition screen_step (s : State) (ev : Event) : option State :=
  if offered s ev then step s ev else None.

Fixpoint screen_run (s : State) (evs : list Event) : option State :=
  match evs with
  | [] => Some s
  | ev :: evs' =>
      match screen_step s ev with
      | Some s' => screen_run s' evs'
      | None => None
      end
  end.

Definition reachable (s : State) : Prop :=
  exists evs, run mounted evs = Some s.

(** ** The life-cycle phase of a state

    The component keeps no phase variable; the phase is read off its cells
    in the order the component itself tests them when it renders: a device
    found unsupported is [Unsupported] whatever else is recorded; otherwise
    an attempt in progress is [Scanning]; otherwise a recorded error is
    [Failed], a recorded card is [Success], and neither is [Idle]. *)
Inductive Phase : Type :=
| Unsupported
| Idle
| Scanning
| Success
| Failed.

Definition phase_of (s : State) : Phase :=
  if negb (nfcSupported s) then Unsupported
  else if isScanning s then Scanning
  else match error s, cardData s with
       | Some _, _ => Failed
       | None, Some _ => Success
       | None, None => Idle
       end.

(** Events that end a scanning attempt: the cancel command and every way a
    suspended [startScan] can run to its end. *)
Definition ends_attempt (ev : Event) : bool :=
  match ev with
  | PressCancel | TechRejected _ | TagRead _ _ | TagRejected _ => true
  | _ => false
  end.

(** The properties every reachable state has, proved together by induction
    on the run. *)
Record consistent (s : State) : Prop := {
  held_scanning : held (hw s) = isScanning s;
  scanning_clean : isScanning s = true -> error s = None /\ cardData s = None;
  unsupported_settled : nfcSupported s = false -> support s = CheckDone;
  acquired_accounted :
    acquireCalls (hw s) <= releaseCalls (hw s) + awaitingTech s + awaitingTag s
}.

(** ** The rendered screen

    What the component returns, as far as it depends on the state; styles
    and the four fixed lines under the title of the info section are left
    out. *)

(** The value a child expression [c && <X/>] leaves in the tree when [c] is
    falsy: [c] itself. *)
Inductive Falsy : Type :=
| JsNull
| JsFalse
| JsEmptyString.

Inductive Conditional (A : Type) : Type :=
| Rendered (a : A)
| NotRendered (v : Falsy).
Arguments Rendered {A} a.
Arguments NotRendered {A} v.

(** What an [onPress] is bound to. *)
Inductive Action : Type :=
| CallStartScan
| CallCancelScan
| CallGoBack.

Record Button : Type := {
  buttonText : string;
  onPress : Action
}.

Record DataRow : Type := {
  dataLabel : string;
  dataValue : string
}.

(** The card box: its four fixed rows and the conditional last row. *)
Record CardView : Type := {
  cardDataTitle : string;
  dataRows : list DataRow;
  technologiesRow : Conditional DataRow
}.

Inductive ScanControl : Type :=
| ScanningContainer (scanningText : string) (cancel : Button)
| StartButton (start : Button).

Inductive Screen : Type :=
| UnsupportedScreen (errorText : string) (goBack : Button)
| ReaderScreen (title : string) (control : ScanControl)
    (errorContainer : Conditional string)
    (cardDataContainer : Conditional CardView)
    (infoTitle : string).

(** [{error && (<View> <Text>Error: {error}</Text> </View>)}]. *)
Definition render_error (e : option string) : Conditional string :=
  match e with
  | None => NotRendered JsNull
  | Some message =>
      if Js.truthy e then Rendered ("Error: " ++ message)
      else NotRendered JsEmptyString
  end.

(** [{cardData && (...)}]; the last row is
    [{cardData.techTypes.length > 0 && (...)}] with
    [cardData.techTypes.join(', ')]. *)
Definition render_card (c : option CardData) : Conditional CardView :=
  match c with
  | None => NotRendered JsNull
  | Some d =>
      Rendered {|
        cardDataTitle := "Card Information";
        dataRows :=
          [ {| dataLabel := "Card Number:"; dataValue := cardNumber d |};
            {| dataLabel := "Tag ID:"; dataValue := id d |};
            {| dataLabel := "Tag Type:"; dataValue := type d |};
            {| dataLabel := "Scanned At:"; dataValue := scannedAt d |} ];
        technologiesRow :=
          if (0 <? List.length (techTypes d))%nat
          then Rendered {| dataLabel := "Technologies:";
                           dataValue := String.concat ", " (techTypes d) |}
          else NotRendered JsFalse
      |}
  end.

(** The component's [return]s. *)
Definition render (s : State) : Screen :=
  if negb (nfcSupported s) then
    UnsupportedScreen "NFC is not supported on this device"
      {| buttonText := "Go Back"; onPress := CallGoBack |}
  else
    ReaderScreen "NFC Card Reader"
      (if isScanning s
       then ScanningContainer "Hold your credit card near the device..."
              {| buttonText := "Cancel"; onPress := CallCancelScan |}
       else StartButton
              {| buttonText := "Start Scanning"; onPress := CallStartScan |})
      (render_error (error s))
      (render_card (cardData s))
      "Important Notes:".

(** The buttons of a screen, and the press each one delivers to the
    component ([navigation.goBack()] leaves it). *)
Definition buttons (scr : Screen) : list Button :=
  match scr with
  | UnsupportedScreen _ b => [b]
  | ReaderScreen _ (ScanningContainer _ b) _ _ _ => [b]
  | ReaderScreen _ (StartButton b) _ _ _ => [b]
  end.

(** The two conditional boxes of the reader screen; the unsupported screen
    has none. *)
Definition error_container (scr : Screen) : option (Conditional string) :=
  match scr with
  | UnsupportedScreen _ _ => None
  | ReaderScreen _ _ e _ _ => Some e
  end.

Definition card_container (scr : Screen) : option (Conditional CardView) :=
  match scr with
  | UnsupportedScreen _ _ => None
  | ReaderScreen _ _ _ c _ => Some c
  end.

Definition pressed (a : Action) : option Event :=
  match a with
  | CallStartScan => Some PressStart
  | CallCancelScan => Some PressCancel
  | CallGoBack => None
  end.

(** ** Unmounting

    The mount effect returns [cleanUpNfc] as its cleanup. Once the component
    is unmounted there is no screen to press and React drops every state
    update, but a suspended [async] call still runs to its end when its
    promise settles: its calls to the NFC manager and to [Alert.alert] are
    made, its [set...] calls have no effect. *)

Record Instance : Type := {
  cells : State;
  unmounted : bool
}.

Inductive Turn : Type :=
| Loop (ev : Event)
| Unmount.

Definition fresh : Instance :=
  {| cells := mounted; unmounted := false |}.

(** The state after a handler ran on an unmounted component: the four
    [useState] cells of [before], everything else of [after]. *)
Definition dropping_updates (before after : State) : State :=
  {| isScanning := isScanning before; nfcSupported := nfcSupported before;
     cardData := cardData before; error := error before;
     hw := hw after; support := support after;
     awaitingTech := awaitingTech after; awaitingTag := awaitingTag after;
     alerts := alerts after |}.

Definition is_press (ev : Event) : bool :=
  match ev with
  | PressStart | PressCancel => true
  | _ => false
  end.

Definition life_step (i : Instance) (t : Turn) : option Instance :=
  match t with
  | Unmount =>
      if unmounted i then None
      else Some {| cells := cleanUpNfc (cells i); unmounted := true |}
  | Loop ev =>
      if unmounted i then
        if is_press ev then None
        else
          match step (cells i) ev with
          | Some s' =>
              Some {| cells := dropping_updates (cells i) s';
                      unmounted := true |}
          | None => None
          end
      else
        match step (cells i) ev with
        | Some s' => Some {| cells := s'; unmounted := false |}
        | None => None
        end
  end.

Fixpoint life_run (i : Instance) (ts : list Turn) : option Instance :=
  match ts with
  | [] => Some i
  | t :: ts' =>
      match life_step i t with
      | Some i' => life_run i' ts'
      | None => None
      end
  end.

(** ** Counting events and alerts *)

Definition is_start (ev : Event) : bool :=
  match ev with PressStart => true | _ => false end.

Definition is_cancel (ev : Event) : bool :=
  match ev with PressCancel => true | _ => false end.

Definition is_rejection (ev : Event) : bool :=
  match ev with TechRejected _ | TagRejected _ => true | _ => false end.

Definition reads_tag (ev : Event) : bool :=
  match ev with TagRead _ (Some _) => true | _ => false end.

Definition probe_says_no (ev : Event) : bool :=
  match ev with ProbeResolved false => true | _ => false end.

Definition occurrences (p : Event -> bool) (evs : list Event) : nat :=
  List.length (filter p evs).

Definition turn_occurrences (p : Event -> bool) (ts : list Turn) : nat :=
  List.length
    (filter (fun t => match t with Loop ev => p ev | Unmount => false end) ts).

(** How many alerts with this title were shown. *)
Definition shown (title : string) (s : State) : nat :=
  List.length (filter (String.eqb title) (alerts s)).

(** * Properties of the tag parser *)

Section Slice.

Lemma substring_all (s : string) : substring 0 (String.length s) s = s.
Proof. induction s as [|c s IH]; simpl; [reflexivity | now rewrite IH]. Qed.

(** Cutting a string at [n] loses nothing. *)
Lemma substring_cut (s : string) : forall n, n <= String.length s ->
  s = substring 0 n s ++ substring n (String.length s - n) s.
Proof.
  induction s as [|c s IH]; intros n Hn; simpl in *.
  - destruct n; [reflexivity | lia].
  - destruct n as [|n]; simpl.
    + now rewrite substring_all.
    + f_equal. apply IH. lia.
Qed.

Lemma substring_length (s : string) : forall n m, n + m <= String.length s ->
  String.length (substring n m s) = m.
Proof.
  induction s as [|c s IH]; intros n m Hnm; simpl in *.
  - destruct n, m; simpl; lia.
  - destruct n as [|n]; [destruct m as [|m]|]; simpl; auto.
    + f_equal. apply (IH 0 m). lia.
    + apply IH. lia.
Qed.

(** [s.slice(-4)] written with natural numbers. *)
Lemma slice_last_four (s : string) :
  Js.slice s (-4) =
  substring (String.length s - 4) (String.length s - (String.length s - 4)) s.
Proof.
  unfold Js.slice. cbn zeta.
  change (-4 <? 0)%Z with true. cbn iota.
  f_equal; lia.
Qed.

Lemma slice_suffix (s : string) :
  s = substring 0 (String.length s - 4) s ++ Js.slice s (-4).
Proof. rewrite slice_last_four. apply substring_cut. lia. Qed.

Lemma slice_length (s : string) :
  String.length (Js.slice s (-4)) = Nat.min 4 (String.length s).
Proof. rewrite slice_last_four, substring_length; lia. Qed.

Lemma slice_short (s : string) :
  String.length s <= 4 -> Js.slice s (-4) = s.
Proof.
  intros Hs. rewrite slice_last_four.
  replace (String.length s - 4) with 0 by lia.
  rewrite Nat.sub_0_r. apply substring_all.
Qed.

End Slice.

Lemma truthy_nonempty (s : string) : s <> "" -> Js.truthy (Some s) = true.
Proof.
  intros Hs. unfold Js.truthy. apply negb_true_iff. now apply String.eqb_neq.
Qed.

Lemma maskCardNumber_present (s : string) :
  s <> "" ->
  maskCardNumber (Some s) = Js.Normal ("**** **** **** " ++ Js.slice s (-4)).
Proof.
  intros Hs. unfold maskCardNumber. now rewrite (truthy_nonempty s Hs).
Qed.

Lemma maskCardNumber_returns (v : option string) :
  Js.returns (maskCardNumber v).
Proof.
  unfold Js.returns, maskCardNumber. destruct v as [s|]; simpl.
  - destruct (s =? ""); simpl; eauto.
  - eauto.
Qed.

(** C2, as the claim states it, fails: a two-character identifier is shown
    in full after the mask prefix instead of being replaced by [****]. *)
Lemma maskCardNumber_short_identifier_shown :
  String.length "AB" < 4 /\
  maskCardNumber (Some "AB") = Js.Normal "**** **** **** AB" /\
  maskCardNumber (Some "AB") <> Js.Normal "****".
Proof.
  split; [simpl; lia|]. split; [reflexivity | discriminate].
Qed.

(** C2, amended: masking returns [****] when the identifier is absent or
    empty; for every non-empty identifier it returns the mask prefix followed
    by [id.slice(-4)], a suffix of the identifier of length [min 4 (length id)],
    so an identifier of at most four characters is shown whole. *)
Theorem maskCardNumber_spec :
  maskCardNumber None = Js.Normal "****" /\
  maskCardNumber (Some "") = Js.Normal "****" /\
  forall s : string, s <> "" ->
    maskCardNumber (Some s) = Js.Normal ("**** **** **** " ++ Js.slice s (-4)) /\
    s = substring 0 (String.length s - 4) s ++ Js.slice s (-4) /\
    String.length (Js.slice s (-4)) = Nat.min 4 (String.length s) /\
    (String.length s <= 4 -> Js.slice s (-4) = s).
Proof.
  split; [reflexivity|]. split; [reflexivity|].
  intros s Hs. split; [now apply maskCardNumber_present|].
  split; [apply slice_suffix|]. split; [apply slice_length | apply slice_short].
Qed.

Lemma maskCardNumber_spec_witness :
  "04A1B2C3" <> "" /\
  maskCardNumber (Some "04A1B2C3") = Js.Normal "**** **** **** B2C3".
Proof.
  split; [discriminate|].
  exact (proj1 (proj2 (proj2 maskCardNumber_spec) "04A1B2C3"
                  ltac:(discriminate))).
Defined.

(** C5: [parseCardData] returns a card for every tag record and every clock
    reading (it never throws), with [N/A], the empty list, [Unknown] and
    [****] for absent fields; it is a function of the record and the clock
    alone, and the clock decides [scannedAt] and nothing else. *)
Theorem parseCardData_never_throws (now : string) (tag : TagEvent) :
  match parseCardData now tag with
  | Js.Normal d =>
      scannedAt d = now /\
      (tag_id tag = None -> id d = "N/A" /\ cardNumber d = "****") /\
      (tag_techTypes tag = None -> techTypes d = []) /\
      (tag_type tag = None -> type d = "Unknown") /\
      forall now', parseCardData now' tag =
        Js.Normal {| id := id d; techTypes := techTypes d; type := type d;
                     cardNumber := cardNumber d; scannedAt := now' |}
  | Js.Throw _ => False
  end.
Proof.
  unfold parseCardData.
  destruct (maskCardNumber_returns (tag_id tag)) as [masked Hm].
  rewrite Hm. simpl. split; [reflexivity|].
  split.
  - intros Hid. rewrite Hid in *. simpl. split; [reflexivity|].
    unfold maskCardNumber in Hm. simpl in Hm. congruence.
  - split; [intros Ht; now rewrite Ht|].
    split; [intros Ht; now rewrite Ht|].
    intros now'. reflexivity.
Qed.

Lemma parseCardData_never_throws_witness :
  parseCardData "2024-01-01"
    {| tag_id := None; tag_techTypes := None; tag_type := None |} =
  Js.Normal {| id := "N/A"; techTypes := []; type := "Unknown";
               cardNumber := "****"; scannedAt := "2024-01-01" |}.
Proof.
  pose proof (parseCardData_never_throws "2024-01-01"
    {| tag_id := None; tag_techTypes := None; tag_type := None |}) as H.
  destruct (parseCardData "2024-01-01"
    {| tag_id := None; tag_techTypes := None; tag_type := None |}) as [d|e];
    [|destruct H].
  destruct H as (Hnow & Hid & Htech & Htype & _).
  destruct (Hid eq_refl) as [Hi Hc].
  destruct d as [i t ty c sc]; simpl in *.
  rewrite Hnow, Hi, Hc, (Htech eq_refl), (Htype eq_refl). reflexivity.
Defined.

(** C8: the scenario of the spec, whether the record carries no technology
    list or an empty one. *)
Theorem parseCardData_scenario (now : string) :
  parseCardData now
    {| tag_id := Some "04A1B2C3"; tag_techTypes := None;
       tag_type := Some "ISO14443" |} =
  Js.Normal {| id := "04A1B2C3"; techTypes := []; type := "ISO14443";
               cardNumber := "**** **** **** B2C3"; scannedAt := now |} /\
  parseCardData now
    {| tag_id := Some "04A1B2C3"; tag_techTypes := Some [];
       tag_type := Some "ISO14443" |} =
  Js.Normal {| id := "04A1B2C3"; techTypes := []; type := "ISO14443";
               cardNumber := "**** **** **** B2C3"; scannedAt := now |}.
Proof. split; reflexivity. Qed.

(** C9, as the claim states it, fails: a technology the hardware lists twice
    is listed twice in the card. *)
Lemma parseCardData_keeps_duplicates :
  exists d,
    parseCardData "2024-01-01"
      {| tag_id := Some "04A1B2C3"; tag_techTypes := Some ["IsoDep"; "IsoDep"];
         tag_type := None |} = Js.Normal d /\
    techTypes d = ["IsoDep"; "IsoDep"] /\
    ~ NoDup (techTypes d).
Proof.
  eexists. split; [reflexivity|]. split; [reflexivity|].
  simpl. intros Hnd. inversion Hnd as [|x l Hin _]; subst.
  apply Hin. now left.
Qed.

(** C9, amended: the technologies of the card are the hardware's list as
    given, in its order and with its repetitions (the empty list when the
    record has none); the list is free of duplicates when the hardware's is. *)
Theorem parseCardData_techTypes (now : string) (tag : TagEvent) :
  match parseCardData now tag with
  | Js.Normal d =>
      (forall l, tag_techTypes tag = Some l ->
         techTypes d = l /\ (NoDup l -> NoDup (techTypes d))) /\
      (tag_techTypes tag = None -> techTypes d = [])
  | Js.Throw _ => False
  end.
Proof.
  unfold parseCardData.
  destruct (maskCardNumber_returns (tag_id tag)) as [masked Hm].
  rewrite Hm. simpl. split.
  - intros l Hl. rewrite Hl. simpl. auto.
  - intros Hl. now rewrite Hl.
Qed.

Lemma parseCardData_techTypes_witness :
  match parseCardData "2024-01-01"
          {| tag_id := None; tag_techTypes := Some ["IsoDep"; "NfcA"];
             tag_type := None |} with
  | Js.Normal d => techTypes d = ["IsoDep"; "NfcA"] /\ NoDup (techTypes d)
  | Js.Throw _ => False
  end.
Proof.
  pose proof (parseCardData_techTypes "2024-01-01"
    {| tag_id := None; tag_techTypes := Some ["IsoDep"; "NfcA"];
       tag_type := None |}) as H.
  destruct (parseCardData "2024-01-01"
    {| tag_id := None; tag_techTypes := Some ["IsoDep"; "NfcA"];
       tag_type := None |}) as [d|e]; [|exact H].
  destruct H as [H _].
  destruct (H ["IsoDep"; "NfcA"] eq_refl) as [Heq Hnd].
  split; [exact Heq|]. apply Hnd.
  constructor; [simpl; intros [E|[]]; discriminate|].
  constructor; [simpl; tauto | constructor].
Defined.


(** * Properties of the scan life cycle *)

Section Runs.

Lemma screen_step_step (s s' : State) (ev : Event) :
  screen_step s ev = Some s' -> step s ev = Some s'.
Proof. unfold screen_step. destruct (offered s ev); [auto | discriminate]. Qed.

(** What the screen can do, the handlers can do. *)
Lemma screen_run_run (evs : list Event) : forall s s',
  screen_run s evs = Some s' -> run s evs = Some s'.
Proof.
  induction evs as [|ev evs IH]; intros s s' H; simpl in *; [exact H|].
  destruct (screen_step s ev) as [s1|] eqn:E; [|discriminate].
  rewrite (screen_step_step _ _ _ E). now apply IH.
Qed.

End Runs.

(** Inverts [step s ev = Some s'] once [ev] is known: finds the suspended
    call the event resumes, and replaces [s'] by the handler's result. *)
Ltac resumed H :=
  simpl in H;
  repeat match type of H with
    | match support ?s with _ => _ end = Some _ =>
        destruct (support s) eqn:?; try discriminate H
    | match awaitingTech ?s with _ => _ end = Some _ =>
        destruct (awaitingTech s) eqn:?; try discriminate H
    | match awaitingTag ?s with _ => _ end = Some _ =>
        destruct (awaitingTag s) eqn:?; try discriminate H
    end;
  injection H as <-.

(** Splits the three ways [startScan_gotTag] continues. *)
Ltac tag_cases now tag :=
  unfold startScan_gotTag;
  destruct tag as [?t|]; [destruct (parseCardData now t)|].

Section Invariant.

Lemma consistent_mounted : consistent mounted.
Proof. constructor; simpl; auto; discriminate. Qed.

Lemma startScan_consistent (s : State) : consistent s -> consistent (startScan s).
Proof.
  intros [Hh Hc Hu Ha]. unfold startScan.
  destruct (nfcSupported s) eqn:Hn; simpl.
  - constructor; simpl; auto; try lia. congruence.
  - constructor; simpl; auto.
Qed.

(** The [finally] block restores consistency whatever ran before it. *)
Lemma finally_consistent (s : State) :
  acquireCalls (hw s) <= S (releaseCalls (hw s) + awaitingTech s + awaitingTag s) ->
  (nfcSupported s = false -> support s = CheckDone) ->
  consistent (startScan_finally s).
Proof.
  intros Ha Hu. constructor; simpl; auto; discriminate.
Qed.

Lemma step_consistent (s s' : State) (ev : Event) :
  consistent s -> step s ev = Some s' -> consistent s'.
Proof.
  intros Hs H. pose proof Hs as [Hh Hc Hu Ha].
  destruct ev; resumed H.
  - unfold checkNfcSupport_probed. destruct supported;
      constructor; simpl; auto; discriminate.
  - constructor; simpl; auto.
  - constructor; simpl; auto.
  - constructor; simpl; auto.
  - now apply startScan_consistent.
  - apply finally_consistent; [lia | exact Hu].
  - constructor; simpl; auto. lia.
  - apply finally_consistent; simpl; [lia | exact Hu].
  - tag_cases now tag; apply finally_consistent; simpl; auto; lia.
  - apply finally_consistent; simpl; [lia | exact Hu].
Qed.

Lemma run_consistent (evs : list Event) : forall s s',
  consistent s -> run s evs = Some s' -> consistent s'.
Proof.
  induction evs as [|ev evs IH]; intros s s' Hs H; simpl in H.
  - now injection H as <-.
  - destruct (step s ev) as [s1|] eqn:E; [|discriminate].
    apply (IH s1); [|exact H]. exact (step_consistent _ _ _ Hs E).
Qed.

Lemma reachable_consistent (s : State) : reachable s -> consistent s.
Proof. intros [evs H]. exact (run_consistent _ _ _ consistent_mounted H). Qed.

(** Every event that ends an attempt runs the release call and leaves the
    scanning flag down. *)
Lemma ending_releases (s s' : State) (ev : Event) :
  ends_attempt ev = true -> step s ev = Some s' ->
  isScanning s' = false /\ held (hw s') = false /\
  releaseCalls (hw s') = S (releaseCalls (hw s)) /\
  acquireCalls (hw s') = acquireCalls (hw s).
Proof.
  intros He H. destruct ev; try discriminate He; resumed H;
    try tag_cases now tag; simpl; auto.
Qed.

(** The other events leave the release count alone. *)
Lemma not_ending_keeps_releases (s s' : State) (ev : Event) :
  ends_attempt ev = false -> step s ev = Some s' ->
  releaseCalls (hw s') = releaseCalls (hw s).
Proof.
  intros He H. destruct ev; try discriminate He; resumed H; try reflexivity.
  - unfold checkNfcSupport_probed. now destruct supported.
  - unfold startScan. now destruct (nfcSupported s).
Qed.

Lemma quiet_run_keeps_releases (evs : list Event) : forall s s',
  forallb (fun ev => negb (ends_attempt ev)) evs = true ->
  run s evs = Some s' ->
  releaseCalls (hw s') = releaseCalls (hw s).
Proof.
  induction evs as [|ev evs IH]; intros s s' Hq H; simpl in *.
  - now injection H as <-.
  - apply andb_true_iff in Hq as [Hev Hq]. apply negb_true_iff in Hev.
    destruct (step s ev) as [s1|] eqn:E; [|discriminate].
    rewrite (IH _ _ Hq H). exact (not_ending_keeps_releases _ _ _ Hev E).
Qed.

Lemma phase_scanning (s : State) :
  phase_of s = Scanning <-> nfcSupported s = true /\ isScanning s = true.
Proof.
  unfold phase_of. destruct (nfcSupported s), (isScanning s); simpl;
    try destruct (error s); try destruct (cardData s);
    split; try tauto; try discriminate; intros [? ?]; discriminate.
Qed.

(** Outside [Unsupported] and [Scanning] the scanning flag is down. *)
Lemma phase_settled (s : State) :
  phase_of s = Idle \/ phase_of s = Success \/ phase_of s = Failed ->
  nfcSupported s = true /\ isScanning s = false.
Proof.
  unfold phase_of. destruct (nfcSupported s), (isScanning s); simpl; auto;
    intros [H|[H|H]]; discriminate.
Qed.

(** A raised [isScanning] always has a suspended [startScan] behind it. *)
Lemma scanning_has_suspended (evs : list Event) : forall s s',
  (isScanning s = true -> 0 < awaitingTech s + awaitingTag s) ->
  run s evs = Some s' ->
  isScanning s' = true -> 0 < awaitingTech s' + awaitingTag s'.
Proof.
  induction evs as [|ev evs IH]; intros s s' Hs H; simpl in H.
  - now injection H as <-.
  - destruct (step s ev) as [s1|] eqn:E; [|discriminate].
    apply (IH s1); [|exact H].
    destruct ev; resumed E;
      try (unfold checkNfcSupport_probed; destruct supported);
      try (unfold startScan; destruct (nfcSupported s));
      try (tag_cases now tag);
      simpl; try discriminate; try exact Hs; intros; lia.
Qed.

End Invariant.

(** C1, as the claim states it, fails: [nfcSupported] starts out true, so a
    start pressed before the probe answers is accepted and reserves the
    radio; when the probe then answers false the component is [Unsupported],
    its screen carries the Go Back button only, and the radio is still
    reserved. *)
Lemma radio_held_while_unsupported :
  exists s,
    screen_run mounted [PressStart; ProbeResolved false] = Some s /\
    held (hw s) = true /\
    phase_of s = Unsupported /\
    phase_of s <> Scanning /\
    buttons (render s) = [{| buttonText := "Go Back"; onPress := CallGoBack |}].
Proof.
  eexists. split; [vm_compute; reflexivity|]. vm_compute.
  repeat split. discriminate.
Qed.

(** C1, amended: in every state reached by any sequence of presses and of
    outcomes of the suspended calls, the radio is reserved exactly when
    [isScanning] is up. The phase [Scanning] always has the radio reserved,
    and while the device counts as supported the radio is reserved exactly
    in the phase [Scanning]; it is never reserved in [Idle], [Success] or
    [Failed]. It can be reserved in [Unsupported], when an attempt started
    before the support check settled is still scanning. Every event that
    ends an attempt (cancel, a rejected wait, a tag read whatever it returns,
    a rejected tag read) makes one release call and leaves the radio free
    with [isScanning] down; and every acquisition call is either still
    suspended or was followed by a release call. *)
Theorem radio_held_iff_isScanning (evs : list Event) (s : State)
  (Hrun : run mounted evs = Some s) :
  held (hw s) = isScanning s /\
  (phase_of s = Scanning -> held (hw s) = true) /\
  (nfcSupported s = true -> (held (hw s) = true <-> phase_of s = Scanning)) /\
  (phase_of s = Idle \/ phase_of s = Success \/ phase_of s = Failed ->
   held (hw s) = false) /\
  (phase_of s = Unsupported -> held (hw s) = true ->
   isScanning s = true /\ 0 < awaitingTech s + awaitingTag s) /\
  (forall ev s', ends_attempt ev = true -> step s ev = Some s' ->
     isScanning s' = false /\ phase_of s' <> Scanning /\
     held (hw s') = false /\
     releaseCalls (hw s') = S (releaseCalls (hw s))) /\
  acquireCalls (hw s) <= releaseCalls (hw s) + awaitingTech s + awaitingTag s.
Proof.
  pose proof (run_consistent _ _ _ consistent_mounted Hrun) as [Hh _ _ Ha].
  split; [exact Hh|]. split; [|split; [|split; [|split; [|split]]]].
  - intros Hp. apply phase_scanning in Hp as [_ Hsc]. congruence.
  - intros Hn. rewrite phase_scanning, Hh. tauto.
  - intros Hp. destruct (phase_settled _ Hp) as [_ Hsc]. congruence.
  - intros _ Hheld. assert (Hsc : isScanning s = true) by congruence.
    split; [exact Hsc|].
    apply (scanning_has_suspended evs mounted s); auto. discriminate.
  - intros ev s' He Hstep.
    destruct (ending_releases _ _ _ He Hstep) as (Hsc & Hheld & Hrel & _).
    repeat split; auto. rewrite phase_scanning, Hsc.
    intros [_ H]. discriminate.
  - exact Ha.
Qed.

Lemma radio_held_iff_isScanning_witness :
  run mounted [ProbeResolved true; InitResolved; PressStart] =
    Some (startScan (setSupport CheckDone (setSupport AwaitingInit mounted))) /\
  nfcSupported
    (startScan (setSupport CheckDone (setSupport AwaitingInit mounted))) = true /\
  (held (hw (startScan (setSupport CheckDone (setSupport AwaitingInit mounted))))
     = true <->
   phase_of (startScan (setSupport CheckDone (setSupport AwaitingInit mounted)))
     = Scanning).
Proof.
  split; [reflexivity|]. split; [reflexivity|].
  exact (proj1 (proj2 (proj2 (radio_held_iff_isScanning
                                [ProbeResolved true; InitResolved; PressStart]
                                _ eq_refl))) eq_refl).
Defined.

(** C3, as the claim states it, fails: the cancelled attempt is still
    suspended, and when its wait ends its [catch] and [finally] run; the run
    below ends in [Failed] with an error recorded and two release calls for
    the one acquisition. A tag read that answers after the cancel ends in
    [Success], again with two release calls. *)
Lemma cancelled_attempt_releases_twice :
  (exists s,
     screen_run mounted
       [ProbeResolved true; InitResolved; PressStart; PressCancel;
        TechRejected (Js.ErrorObj "cancelled")] = Some s /\
     phase_of s = Failed /\ error s = Some "cancelled" /\
     acquireCalls (hw s) = 1 /\ releaseCalls (hw s) = 2) /\
  (exists s,
     screen_run mounted
       [ProbeResolved true; InitResolved; PressStart; TechResolved; PressCancel;
        TagRead "2024-01-01"
          (Some {| tag_id := Some "04A1B2C3"; tag_techTypes := None;
                   tag_type := None |})] = Some s /\
     phase_of s = Success /\
     acquireCalls (hw s) = 1 /\ releaseCalls (hw s) = 2).
Proof.
  split; eexists; (split; [vm_compute; reflexivity|]); vm_compute; repeat split.
Qed.

(** C3, amended: a cancel pressed while [Scanning], in any reachable state,
    leaves the controller in [Idle] with no error and no card, and makes
    exactly one release call and no acquisition call; the cancelled
    [startScan] stays suspended, and as long as no suspended call ends and no
    further cancel is pressed, that release call remains the only one. *)
Theorem cancel_while_scanning (evs : list Event) (s : State)
  (Hrun : run mounted evs = Some s)
  (Hcancel : offered s PressCancel = true) :
  phase_of s = Scanning /\
  step s PressCancel = Some (cancelScan s) /\
  phase_of (cancelScan s) = Idle /\
  error (cancelScan s) = None /\
  cardData (cancelScan s) = None /\
  held (hw (cancelScan s)) = false /\
  releaseCalls (hw (cancelScan s)) = S (releaseCalls (hw s)) /\
  acquireCalls (hw (cancelScan s)) = acquireCalls (hw s) /\
  awaitingTech (cancelScan s) = awaitingTech s /\
  awaitingTag (cancelScan s) = awaitingTag s /\
  forall evs' s',
    forallb (fun ev => negb (ends_attempt ev)) evs' = true ->
    run (cancelScan s) evs' = Some s' ->
    releaseCalls (hw s') = S (releaseCalls (hw s)).
Proof.
  pose proof (run_consistent _ _ _ consistent_mounted Hrun) as [_ Hc _ _].
  simpl in Hcancel. apply andb_true_iff in Hcancel as [Hn Hsc].
  destruct (Hc Hsc) as [He Hd].
  split; [now apply phase_scanning|].
  split; [reflexivity|].
  split; [unfold phase_of; simpl; now rewrite Hn, He, Hd|].
  repeat (split; [solve [simpl; auto]|]).
  intros evs' s' Hquiet Hrun'.
  now rewrite (quiet_run_keeps_releases _ _ _ Hquiet Hrun').
Qed.

Lemma cancel_while_scanning_witness :
  run mounted [PressStart] = Some (startScan mounted) /\
  offered (startScan mounted) PressCancel = true /\
  phase_of (cancelScan (startScan mounted)) = Idle /\
  releaseCalls (hw (cancelScan (startScan mounted))) = 1.
Proof.
  pose proof (cancel_while_scanning [PressStart] (startScan mounted)
                eq_refl eq_refl) as H.
  split; [reflexivity|]. split; [reflexivity|].
  split; [exact (proj1 (proj2 (proj2 H)))|].
  exact (proj1 (proj2 (proj2 (proj2 (proj2 (proj2 (proj2 H))))))).
Defined.

Section InFlight.

Lemma in_flight_cons (ev : Event) (evs : list Event) :
  occurrences is_cancel (ev :: evs) =
  Nat.b2n (is_cancel ev) + occurrences is_cancel evs.
Proof. unfold occurrences. simpl. now destruct (is_cancel ev). Qed.

(** Driven through the screen, a turn adds a suspended [startScan] only by a
    start pressed while [isScanning] is down, and each cancel lowers
    [isScanning] without ending the call it cancels. *)
Lemma screen_step_in_flight (s s' : State) (ev : Event) (c : nat) :
  awaitingTech s + awaitingTag s <= c + Nat.b2n (isScanning s) ->
  screen_step s ev = Some s' ->
  awaitingTech s' + awaitingTag s' <=
    c + Nat.b2n (is_cancel ev) + Nat.b2n (isScanning s').
Proof.
  intros Hs H. unfold screen_step in H.
  destruct (offered s ev) eqn:Ho; [|discriminate].
  destruct ev; resumed H; simpl in *;
    try (unfold checkNfcSupport_probed; destruct supported; simpl);
    try (tag_cases now tag; simpl);
    try (destruct (isScanning s); simpl in *; lia).
  apply andb_true_iff in Ho as [Hn Hsc]. apply negb_true_iff in Hsc.
  unfold startScan. rewrite Hn, Hsc in *. simpl in *. lia.
Qed.

Lemma screen_run_in_flight (evs : list Event) : forall s s' c,
  awaitingTech s + awaitingTag s <= c + Nat.b2n (isScanning s) ->
  screen_run s evs = Some s' ->
  awaitingTech s' + awaitingTag s' <=
    c + occurrences is_cancel evs + Nat.b2n (isScanning s').
Proof.
  induction evs as [|ev evs IH]; intros s s' c Hs H; simpl in H.
  - injection H as <-. unfold occurrences. simpl. lia.
  - destruct (screen_step s ev) as [s1|] eqn:E; [|discriminate].
    rewrite in_flight_cons.
    pose proof (IH s1 s' (c + Nat.b2n (is_cancel ev))
                  (screen_step_in_flight _ _ _ _ Hs E) H) as Hb.
    lia.
Qed.

End InFlight.

(** C4, as the claim states it, fails: pressing Cancel lowers [isScanning]
    but does not end the [startScan] call it cancels, which stays suspended
    at its wait; the Start button is back on screen, and a second start
    makes a second acquisition call with the first call still in flight. *)
Lemma cancelled_start_stays_in_flight :
  exists s,
    screen_run mounted [PressStart; PressCancel; PressStart] = Some s /\
    phase_of s = Scanning /\
    awaitingTech s = 2 /\
    acquireCalls (hw s) = 2 /\
    releaseCalls (hw s) = 1.
Proof.
  eexists. split; [vm_compute; reflexivity|]. vm_compute. repeat split.
Qed.

(** C4, amended: the screen does not offer the start command while
    [Scanning] (the Start button is rendered only when [isScanning] is
    false): in every run driven through the screen, an acquisition call is
    made only by a start pressed in a phase other than [Scanning], with the
    radio free, and it is a single call. A cancelled [startScan] stays
    suspended until its promise settles, so more than one call can be in
    flight: the calls in flight are at most one for the attempt that is
    scanning plus one for every cancel pressed, hence at most one as long as
    no cancel was pressed. *)
Theorem screen_start_only_when_not_scanning (evs : list Event) (s : State)
  (Hrun : screen_run mounted evs = Some s) :
  (phase_of s = Scanning -> offered s PressStart = false) /\
  (forall ev s', screen_step s ev = Some s' ->
     acquireCalls (hw s') <> acquireCalls (hw s) ->
     ev = PressStart /\ phase_of s <> Scanning /\ held (hw s) = false /\
     acquireCalls (hw s') = S (acquireCalls (hw s)) /\
     phase_of s' = Scanning) /\
  awaitingTech s + awaitingTag s <=
    Nat.b2n (isScanning s) + occurrences is_cancel evs /\
  (occurrences is_cancel evs = 0 -> awaitingTech s + awaitingTag s <= 1).
Proof.
  pose proof (run_consistent _ _ _ consistent_mounted
                (screen_run_run _ _ _ Hrun)) as [Hh _ _ _].
  assert (Hflight : awaitingTech s + awaitingTag s <=
                    Nat.b2n (isScanning s) + occurrences is_cancel evs).
  { pose proof (screen_run_in_flight evs mounted s 0) as Hb.
    simpl in Hb. specialize (Hb ltac:(lia) Hrun). lia. }
  split; [|split; [|split]].
  - intros Hp. apply phase_scanning in Hp as [_ Hp]. simpl. rewrite Hp.
    now rewrite andb_false_r.
  - intros ev s' Hstep Hacq. unfold screen_step in Hstep.
    destruct (offered s ev) eqn:Ho; [|discriminate].
    destruct ev; resumed Hstep;
      try (exfalso; apply Hacq; reflexivity).
    + exfalso. apply Hacq. unfold checkNfcSupport_probed. now destruct supported.
    + simpl in Ho. apply andb_true_iff in Ho as [Hn Hsc].
      apply negb_true_iff in Hsc.
      split; [reflexivity|].
      split; [rewrite phase_scanning, Hsc; intros [_ H]; discriminate|].
      split; [congruence|].
      unfold startScan, phase_of. rewrite Hn. simpl. rewrite Hn.
      split; reflexivity.
    + exfalso. apply Hacq. tag_cases now tag; reflexivity.
  - exact Hflight.
  - intros Hc. destruct (isScanning s); simpl in Hflight; lia.
Qed.

Lemma screen_start_only_when_not_scanning_witness :
  screen_run mounted [PressStart] = Some (startScan mounted) /\
  phase_of (startScan mounted) = Scanning /\
  offered (startScan mounted) PressStart = false /\
  awaitingTech (startScan mounted) + awaitingTag (startScan mounted) <= 1.
Proof.
  pose proof (screen_start_only_when_not_scanning [PressStart] _ eq_refl) as H.
  split; [reflexivity|]. split; [reflexivity|].
  split; [exact (proj1 H eq_refl)|].
  exact (proj2 (proj2 (proj2 H)) eq_refl).
Defined.

Section FailClosed.

(** Once [nfcSupported] is false, no event raises it again and no event
    reaches the acquisition call. *)
Lemma unsupported_step (s s' : State) (ev : Event) :
  consistent s -> nfcSupported s = false -> step s ev = Some s' ->
  nfcSupported s' = false /\
  acquireCalls (hw s') = acquireCalls (hw s) /\
  (isScanning s = false -> isScanning s' = false).
Proof.
  intros [_ _ Hu _] Hn Hstep. specialize (Hu Hn).
  destruct ev; simpl in Hstep; rewrite ?Hu in Hstep; try discriminate Hstep;
    resumed Hstep; try tag_cases now tag; simpl; auto.
  unfold startScan. rewrite Hn. simpl. auto.
Qed.

Lemma unsupported_run (evs : list Event) : forall s s',
  consistent s -> nfcSupported s = false -> run s evs = Some s' ->
  nfcSupported s' = false /\
  acquireCalls (hw s') = acquireCalls (hw s) /\
  (isScanning s = false -> isScanning s' = false).
Proof.
  induction evs as [|ev evs IH]; intros s s' Hs Hn H; simpl in H.
  - injection H as <-. auto.
  - destruct (step s ev) as [s1|] eqn:E; [|discriminate].
    destruct (unsupported_step _ _ _ Hs Hn E) as (Hn1 & Ha1 & Hsc1).
    destruct (IH s1 s' (step_consistent _ _ _ Hs E) Hn1 H) as (Hn' & Ha' & Hsc').
    repeat split; auto. congruence.
Qed.

(** The three ways the support check fails all lower [nfcSupported]. *)
Lemma check_failure_lowers (s s' : State) (ev : Event) :
  ev = ProbeResolved false \/ ev = ProbeRejected \/ ev = InitRejected ->
  step s ev = Some s' -> nfcSupported s' = false.
Proof.
  intros [->|[->| ->]] Hstep; resumed Hstep; reflexivity.
Qed.

End FailClosed.

(** C6, as the claim states it, fails: a start pressed while
    [NfcManager.start()] is still pending is accepted; its wait is rejected
    and records an error, then the initialisation fails: the controller is
    [Unsupported], not [Failed], with the error still recorded. *)
Lemma error_outlives_failed_phase :
  exists s,
    screen_run mounted
      [ProbeResolved true; PressStart;
       TechRejected (Js.ErrorObj "NFC not started"); InitRejected] = Some s /\
    error s = Some "NFC not started" /\
    phase_of s = Unsupported /\
    phase_of s <> Failed.
Proof.
  eexists. split; [vm_compute; reflexivity|]. vm_compute.
  repeat split. discriminate.
Qed.

(** C6, amended: in every reachable state the error is null in [Scanning]
    and in [Idle] and non-null in [Failed]; while the device counts as
    supported, the error is non-null if and only if the phase is [Failed] (a
    state that records an error counts as [Failed] also when a card is
    recorded). An error can remain recorded in [Unsupported]. *)
Theorem error_iff_failed_when_supported (s : State) (Hreach : reachable s) :
  (phase_of s = Failed -> error s <> None) /\
  (phase_of s = Scanning \/ phase_of s = Idle -> error s = None) /\
  (nfcSupported s = true -> (error s <> None <-> phase_of s = Failed)).
Proof.
  pose proof (reachable_consistent _ Hreach) as [_ Hc _ _].
  unfold phase_of.
  destruct (nfcSupported s); simpl.
  - destruct (isScanning s) eqn:Hsc.
    + destruct (Hc eq_refl) as [He _]. rewrite He.
      split; [discriminate|]. split; [reflexivity|].
      intros _. split; [congruence | discriminate].
    + destruct (error s) as [e|], (cardData s) as [d|];
        (split; [try discriminate; congruence|]);
        (split; [intros [H|H]; try discriminate; reflexivity|]);
        intros _; split; try discriminate; congruence.
  - split; [discriminate|]. split; [intros [H|H]; discriminate|].
    discriminate.
Qed.

Lemma error_iff_failed_when_supported_witness :
  run mounted [PressStart; TechRejected Js.NonError] =
    Some (startScan_rejected Js.NonError
            (setSuspended 0 0 (startScan mounted))) /\
  nfcSupported (startScan_rejected Js.NonError
                  (setSuspended 0 0 (startScan mounted))) = true /\
  phase_of (startScan_rejected Js.NonError
              (setSuspended 0 0 (startScan mounted))) = Failed /\
  error (startScan_rejected Js.NonError
           (setSuspended 0 0 (startScan mounted))) <> None.
Proof.
  split; [reflexivity|]. split; [reflexivity|]. split; [reflexivity|].
  exact (proj1 (error_iff_failed_when_supported _
                  (ex_intro _ [PressStart; TechRejected Js.NonError] eq_refl))
           eq_refl).
Defined.

(** C7, as the claim states it, fails: [nfcSupported] starts out true and the
    Start button is on screen while the support check is pending, so a start
    pressed before the probe answers false, or before the initialisation
    fails, makes an acquisition call. *)
Lemma start_before_check_settles_acquires :
  (exists s,
     screen_run mounted [PressStart; ProbeResolved false] = Some s /\
     nfcSupported s = false /\ acquireCalls (hw s) = 1) /\
  (exists s,
     screen_run mounted [PressStart; ProbeRejected] = Some s /\
     nfcSupported s = false /\ acquireCalls (hw s) = 1) /\
  (exists s,
     screen_run mounted [ProbeResolved true; PressStart; InitRejected] = Some s /\
     nfcSupported s = false /\ acquireCalls (hw s) = 1).
Proof.
  repeat split; eexists; (split; [vm_compute; reflexivity|]);
    vm_compute; split; reflexivity.
Qed.

(** C7, amended: a probe that answers false, a rejected probe and a rejected
    initialisation each lower [nfcSupported]; from a reachable state where it
    is lowered, every further run keeps it lowered and makes no acquisition
    call, and the phase is [Unsupported] throughout. In particular, when the
    check fails before any start was pressed, no acquisition call is ever
    made. *)
Theorem unsupported_is_terminal (evs : list Event) (s : State)
  (Hrun : run mounted evs = Some s) :
  (forall ev s',
     ev = ProbeResolved false \/ ev = ProbeRejected \/ ev = InitRejected ->
     step s ev = Some s' -> nfcSupported s' = false) /\
  (nfcSupported s = false ->
   forall evs' s', run s evs' = Some s' ->
     nfcSupported s' = false /\
     acquireCalls (hw s') = acquireCalls (hw s) /\
     phase_of s' = Unsupported) /\
  (nfcSupported s = false -> acquireCalls (hw s) = 0 ->
   forall evs' s', run s evs' = Some s' -> acquireCalls (hw s') = 0).
Proof.
  pose proof (run_consistent _ _ _ consistent_mounted Hrun) as Hs.
  split; [|split].
  - intros ev s' Hev Hstep. exact (check_failure_lowers _ _ _ Hev Hstep).
  - intros Hn evs' s' Hrun'.
    destruct (unsupported_run _ _ _ Hs Hn Hrun') as (Hn' & Ha' & Hsc').
    repeat split; auto.
    unfold phase_of. now rewrite Hn'.
  - intros Hn H0 evs' s' Hrun'.
    destruct (unsupported_run _ _ _ Hs Hn Hrun') as (_ & Ha' & _). congruence.
Qed.

Lemma unsupported_is_terminal_witness :
  run mounted [ProbeResolved false] =
    Some (checkNfcSupport_probed false mounted) /\
  nfcSupported (checkNfcSupport_probed false mounted) = false /\
  run (checkNfcSupport_probed false mounted) [PressStart; PressStart] =
    Some (startScan (startScan (checkNfcSupport_probed false mounted))) /\
  acquireCalls
    (hw (startScan (startScan (checkNfcSupport_probed false mounted)))) = 0.
Proof.
  split; [reflexivity|]. split; [reflexivity|]. split; [reflexivity|].
  exact (proj2 (proj2 (unsupported_is_terminal [ProbeResolved false] _ eq_refl))
           eq_refl eq_refl [PressStart; PressStart] _ eq_refl).
Defined.

(** C10: when the wait resolves and the tag read answers null, the resumed
    [startScan] sets no card and no error, shows no alert, lowers
    [isScanning] and makes the release call; an attempt started from any
    state of a supported device that ends this way leaves the controller in
    [Idle], neither [Success] nor [Failed]. *)
Theorem null_tag_ends_silently (now : string) (s : State)
  (Hsupported : nfcSupported s = true) :
  (forall s', step s (TagRead now None) = Some s' ->
     cardData s' = cardData s /\ error s' = error s /\ alerts s' = alerts s /\
     isScanning s' = false /\ held (hw s') = false /\
     releaseCalls (hw s') = S (releaseCalls (hw s))) /\
  match run s [PressStart; TechResolved; TagRead now None] with
  | Some s' =>
      phase_of s' = Idle /\ cardData s' = None /\ error s' = None /\
      alerts s' = alerts s /\ isScanning s' = false /\ held (hw s') = false /\
      acquireCalls (hw s') = S (acquireCalls (hw s)) /\
      releaseCalls (hw s') = S (releaseCalls (hw s))
  | None => False
  end.
Proof.
  split.
  - intros s' Hstep. resumed Hstep. simpl. repeat split.
  - simpl. unfold startScan. rewrite Hsupported. simpl.
    unfold phase_of. simpl. rewrite Hsupported. simpl. repeat split.
Qed.

Lemma null_tag_ends_silently_witness :
  nfcSupported mounted = true /\
  match run mounted [PressStart; TechResolved; TagRead "2024-01-01" None] with
  | Some s' =>
      phase_of s' = Idle /\ cardData s' = None /\ error s' = None /\
      alerts s' = alerts mounted /\ isScanning s' = false /\
      held (hw s') = false /\
      acquireCalls (hw s') = S (acquireCalls (hw mounted)) /\
      releaseCalls (hw s') = S (releaseCalls (hw mounted))
  | None => False
  end.
Proof.
  split; [reflexivity|].
  exact (proj2 (null_tag_ends_silently "2024-01-01" mounted eq_refl)).
Defined.


(** * Further properties of the tag parser *)

Section Masking.

Lemma append_length (p s : string) :
  String.length (p ++ s) = String.length p + String.length s.
Proof. induction p as [|c p IH]; simpl; [reflexivity | now rewrite IH]. Qed.

(** A substring that starts after a prefix does not see the prefix. *)
Lemma substring_skip_prefix (p s : string) (n m : nat) :
  substring (String.length p + n) m (p ++ s) = substring n m s.
Proof. induction p as [|c p IH]; simpl; [reflexivity | exact IH]. Qed.

Lemma slice_skip_prefix (p s : string) :
  4 <= String.length s -> Js.slice (p ++ s) (-4) = Js.slice s (-4).
Proof.
  intros Hs. rewrite !slice_last_four, append_length.
  replace (String.length p + String.length s - 4)
    with (String.length p + (String.length s - 4)) by lia.
  rewrite substring_skip_prefix. f_equal. lia.
Qed.

Lemma masked_form (s m : string) :
  s <> "" -> maskCardNumber (Some s) = Js.Normal m ->
  m = "**** **** **** " ++ Js.slice s (-4).
Proof.
  intros Hs Hm. rewrite (maskCardNumber_present s Hs) in Hm. congruence.
Qed.

Lemma masked_length (s m : string) :
  s <> "" -> maskCardNumber (Some s) = Js.Normal m ->
  String.length m = 15 + Nat.min 4 (String.length s).
Proof.
  intros Hs Hm. rewrite (masked_form s m Hs Hm).
  now rewrite append_length, slice_length.
Qed.

Lemma masked_nonempty (s m : string) :
  s <> "" -> maskCardNumber (Some s) = Js.Normal m -> m <> "".
Proof.
  intros Hs Hm E. pose proof (masked_length s m Hs Hm) as Hl.
  rewrite E in Hl. simpl in Hl. lia.
Qed.

Lemma parseCardData_returns (now : string) (tag : TagEvent) :
  Js.returns (parseCardData now tag).
Proof.
  unfold parseCardData.
  destruct (maskCardNumber_returns (tag_id tag)) as [masked Hm].
  rewrite Hm. simpl. eexists. reflexivity.
Qed.

End Masking.

(** X1: the masked number of an identifier depends on its last four
    characters only: whatever is put in front of an identifier of at least
    four characters, the masked number is the same. *)
Theorem maskCardNumber_ignores_prefix (p s : string)
  (Hlong : 4 <= String.length s) :
  maskCardNumber (Some (p ++ s)) = maskCardNumber (Some s).
Proof.
  assert (Hs : s <> "") by (intros E; rewrite E in Hlong; simpl in Hlong; lia).
  assert (Hps : p ++ s <> "").
  { intros E. apply (f_equal String.length) in E.
    rewrite append_length in E. simpl in E. lia. }
  rewrite (maskCardNumber_present _ Hs), (maskCardNumber_present _ Hps).
  now rewrite slice_skip_prefix.
Qed.

Lemma maskCardNumber_ignores_prefix_witness :
  4 <= String.length "B2C3" /\
  maskCardNumber (Some ("04A1" ++ "B2C3")) = maskCardNumber (Some "B2C3").
Proof.
  split; [simpl; lia|].
  apply (maskCardNumber_ignores_prefix "04A1" "B2C3"). simpl. lia.
Defined.

(** X2: masking a masked number again gives the same masked number exactly
    when the identifier had at least four characters; the masked form of a
    shorter non-empty identifier changes when it is masked again. *)
Theorem maskCardNumber_idempotent_iff (s m : string)
  (Hs : s <> "") (Hm : maskCardNumber (Some s) = Js.Normal m) :
  maskCardNumber (Some m) = Js.Normal m <-> 4 <= String.length s.
Proof.
  pose proof (masked_nonempty s m Hs Hm) as Hne.
  pose proof (masked_length s m Hs Hm) as Hlen.
  split.
  - intros Hmm. pose proof (masked_length m m Hne Hmm) as Hl. lia.
  - intros Hlong. rewrite (maskCardNumber_present _ Hne).
    rewrite (masked_form s m Hs Hm) at 1 2.
    pose proof (slice_length s) as Hl.
    rewrite slice_skip_prefix by lia.
    rewrite (slice_short (Js.slice s (-4))) by lia. reflexivity.
Qed.

Lemma maskCardNumber_idempotent_iff_witness :
  "04A1B2C3" <> "" /\
  maskCardNumber (Some "04A1B2C3") = Js.Normal "**** **** **** B2C3" /\
  maskCardNumber (Some "**** **** **** B2C3") = Js.Normal "**** **** **** B2C3".
Proof.
  split; [discriminate|]. split; [reflexivity|].
  apply (proj2 (maskCardNumber_idempotent_iff "04A1B2C3" "**** **** **** B2C3"
                  ltac:(discriminate) eq_refl)).
  simpl. lia.
Defined.

(** X3: an identifier or type that is the empty string is treated like an
    absent one, and a non-empty one is copied as it is; the card number is
    computed from the tag's identifier, not from the [N/A] default, and it is
    [****] exactly when the tag has no non-empty identifier. *)
Theorem parseCardData_fields (now : string) (tag : TagEvent) :
  match parseCardData now tag with
  | Js.Normal d =>
      (Js.truthy (tag_id tag) = true ->
         tag_id tag = Some (id d) /\
         cardNumber d = "**** **** **** " ++ Js.slice (id d) (-4)) /\
      (Js.truthy (tag_id tag) = false -> id d = "N/A" /\ cardNumber d = "****") /\
      (cardNumber d = "****" <-> Js.truthy (tag_id tag) = false) /\
      (Js.truthy (tag_type tag) = true -> tag_type tag = Some (type d)) /\
      (Js.truthy (tag_type tag) = false -> type d = "Unknown")
  | Js.Throw _ => False
  end.
Proof.
  unfold parseCardData, maskCardNumber.
  destruct (tag_id tag) as [i|], (tag_type tag) as [t|]; simpl;
    try destruct (i =? ""); try destruct (t =? ""); simpl;
    repeat split; intros; try discriminate; try congruence; auto.
Qed.

Lemma parseCardData_fields_witness :
  match parseCardData "2024-01-01"
          {| tag_id := Some ""; tag_techTypes := None; tag_type := Some "" |} with
  | Js.Normal d => id d = "N/A" /\ cardNumber d = "****" /\ type d = "Unknown"
  | Js.Throw _ => False
  end.
Proof.
  pose proof (parseCardData_fields "2024-01-01"
    {| tag_id := Some ""; tag_techTypes := None; tag_type := Some "" |}) as H.
  destruct (parseCardData "2024-01-01"
    {| tag_id := Some ""; tag_techTypes := None; tag_type := Some "" |})
    as [d|e]; [|exact H].
  destruct H as (_ & Hid & _ & _ & Hty).
  destruct (Hid eq_refl) as [Hi Hc]. split; [exact Hi|]. split; [exact Hc|].
  exact (Hty eq_refl).
Defined.


(** * Further properties of the scan life cycle *)

Section Ledger.

Lemma occurrences_cons (p : Event -> bool) (ev : Event) (evs : list Event) :
  occurrences p (ev :: evs) = Nat.b2n (p ev) + occurrences p evs.
Proof. unfold occurrences. simpl. now destruct (p ev). Qed.

(** What one turn adds to each count. *)
Lemma step_ledger (s s' : State) (ev : Event) :
  step s ev = Some s' ->
  acquireCalls (hw s') + shown "Error" s' =
    acquireCalls (hw s) + shown "Error" s + Nat.b2n (is_start ev) /\
  shown "Scan Failed" s' = shown "Scan Failed" s + Nat.b2n (is_rejection ev) /\
  shown "Success" s' = shown "Success" s + Nat.b2n (reads_tag ev) /\
  shown "NFC Not Supported" s' =
    shown "NFC Not Supported" s + Nat.b2n (probe_says_no ev) /\
  releaseCalls (hw s') + awaitingTech s' + awaitingTag s' + acquireCalls (hw s) =
    acquireCalls (hw s') + releaseCalls (hw s) + awaitingTech s + awaitingTag s
    + Nat.b2n (is_cancel ev).
Proof.
  intros H. destruct ev; resumed H.
  - unfold checkNfcSupport_probed. destruct supported;
      unfold shown; simpl; repeat split; lia.
  - unfold shown; simpl; repeat split; lia.
  - unfold shown; simpl; repeat split; lia.
  - unfold shown; simpl; repeat split; lia.
  - unfold startScan. destruct (nfcSupported s);
      unfold shown; simpl; repeat split; lia.
  - unfold shown; simpl; repeat split; lia.
  - unfold shown; simpl; repeat split; lia.
  - unfold shown; simpl; repeat split; lia.
  - unfold startScan_gotTag. destruct tag as [t|].
    + destruct (parseCardData_returns now t) as [d Hd]. rewrite Hd.
      unfold shown; simpl; repeat split; lia.
    + unfold shown; simpl; repeat split; lia.
  - unfold shown; simpl; repeat split; lia.
Qed.

Lemma run_ledger (evs : list Event) : forall s s',
  run s evs = Some s' ->
  acquireCalls (hw s') + shown "Error" s' =
    acquireCalls (hw s) + shown "Error" s + occurrences is_start evs /\
  shown "Scan Failed" s' = shown "Scan Failed" s + occurrences is_rejection evs /\
  shown "Success" s' = shown "Success" s + occurrences reads_tag evs /\
  shown "NFC Not Supported" s' =
    shown "NFC Not Supported" s + occurrences probe_says_no evs /\
  releaseCalls (hw s') + awaitingTech s' + awaitingTag s' + acquireCalls (hw s) =
    acquireCalls (hw s') + releaseCalls (hw s) + awaitingTech s + awaitingTag s
    + occurrences is_cancel evs.
Proof.
  induction evs as [|ev evs IH]; intros s s' H; simpl in H.
  - injection H as <-. unfold occurrences. simpl. repeat split; lia.
  - destruct (step s ev) as [s1|] eqn:E; [|discriminate].
    rewrite !occurrences_cons.
    destruct (step_ledger _ _ _ E) as (A1 & B1 & C1 & D1 & E1).
    destruct (IH _ _ H) as (A2 & B2 & C2 & D2 & E2).
    repeat split; lia.
Qed.

(** The support check never goes back to its probe. *)
Lemma probe_answers_once (evs : list Event) : forall s s',
  run s evs = Some s' ->
  occurrences probe_says_no evs <=
    match support s with AwaitingProbe => 1 | _ => 0 end.
Proof.
  induction evs as [|ev evs IH]; intros s s' H; simpl in H.
  - unfold occurrences. simpl. destruct (support s); lia.
  - destruct (step s ev) as [s1|] eqn:E; [|discriminate].
    rewrite occurrences_cons. specialize (IH _ _ H).
    destruct ev; resumed E; simpl in *;
      try (unfold checkNfcSupport_probed in IH; destruct supported);
      try (unfold startScan in IH; destruct (nfcSupported s));
      try (unfold startScan_gotTag in IH; destruct tag as [t|];
           [destruct (parseCardData now t)|]);
      simpl in *; try lia; destruct (support s); lia.
Qed.

(** While the device counts as supported no start was ever refused. *)
Lemma supported_never_refused (evs : list Event) : forall s s',
  consistent s -> (nfcSupported s = true -> shown "Error" s = 0) ->
  run s evs = Some s' ->
  nfcSupported s' = true -> shown "Error" s' = 0.
Proof.
  induction evs as [|ev evs IH]; intros s s' Hs H0 H; simpl in H.
  - now injection H as <-.
  - destruct (step s ev) as [s1|] eqn:E; [|discriminate].
    apply (IH s1 s' (step_consistent _ _ _ Hs E)); [|exact H].
    destruct Hs as [_ _ Hu _].
    destruct ev; resumed E; simpl; try exact H0; try discriminate.
    + unfold checkNfcSupport_probed. destruct supported; simpl; [|discriminate].
      intros _. apply H0. destruct (nfcSupported s); [reflexivity|].
      specialize (Hu eq_refl). congruence.
    + unfold startScan. destruct (nfcSupported s) eqn:Hn; simpl;
        [intros _; exact (H0 eq_refl) | rewrite Hn; discriminate].
    + tag_cases now tag; simpl; exact H0.
Qed.

End Ledger.

(** X4: every press of Start did exactly one of two things: it made one
    acquisition call, or it was refused with the [Error] alert; and as long
    as the device counts as supported, no start was refused, so the
    acquisition calls are the start presses. *)
Theorem every_start_acquires_or_alerts (evs : list Event) (s : State)
  (Hrun : run mounted evs = Some s) :
  occurrences is_start evs = acquireCalls (hw s) + shown "Error" s /\
  (nfcSupported s = true ->
   shown "Error" s = 0 /\ acquireCalls (hw s) = occurrences is_start evs).
Proof.
  destruct (run_ledger _ _ _ Hrun) as (A & _). simpl in A.
  change (shown "Error" mounted) with 0 in A.
  split; [lia|]. intros Hn.
  pose proof (supported_never_refused _ _ _ consistent_mounted
                (fun _ => eq_refl) Hrun Hn) as H0.
  split; [exact H0 | lia].
Qed.

Lemma every_start_acquires_or_alerts_witness :
  run mounted [ProbeResolved false; PressStart] =
    Some (startScan (checkNfcSupport_probed false mounted)) /\
  occurrences is_start [ProbeResolved false; PressStart] =
    acquireCalls (hw (startScan (checkNfcSupport_probed false mounted))) +
    shown "Error" (startScan (checkNfcSupport_probed false mounted)).
Proof.
  split; [reflexivity|].
  exact (proj1 (every_start_acquires_or_alerts
                  [ProbeResolved false; PressStart] _ eq_refl)).
Defined.

(** X5: release calls are made by nothing but the end of a suspended
    [startScan] and a press of Cancel, one call each: in every run the
    release calls plus the [startScan] calls still suspended equal the
    acquisition calls plus the cancel presses. *)
Theorem release_calls_accounted (evs : list Event) (s : State)
  (Hrun : run mounted evs = Some s) :
  releaseCalls (hw s) + awaitingTech s + awaitingTag s =
  acquireCalls (hw s) + occurrences is_cancel evs.
Proof.
  destruct (run_ledger _ _ _ Hrun) as (_ & _ & _ & _ & E). simpl in E. lia.
Qed.

Lemma release_calls_accounted_witness :
  run mounted [PressStart; PressCancel; TechRejected Js.NonError] =
    Some (startScan_rejected Js.NonError
            (setSuspended 0 0 (cancelScan (startScan mounted)))) /\
  releaseCalls (hw (startScan_rejected Js.NonError
                      (setSuspended 0 0 (cancelScan (startScan mounted))))) + 0 + 0
  = acquireCalls (hw (startScan_rejected Js.NonError
                      (setSuspended 0 0 (cancelScan (startScan mounted))))) +
    occurrences is_cancel [PressStart; PressCancel; TechRejected Js.NonError].
Proof.
  split; [reflexivity|].
  exact (release_calls_accounted
           [PressStart; PressCancel; TechRejected Js.NonError] _ eq_refl).
Defined.

(** X6: the [Scan Failed] alert is shown once for every rejected wait or tag
    read and for nothing else, the [Success] alert once for every tag read
    that returned a tag and for nothing else (a cancel and a null tag show no
    alert), and the [NFC Not Supported] alert only when the probe answers
    false, at most once: a rejected probe and a failed initialisation show no
    alert. *)
Theorem alerts_follow_outcomes (evs : list Event) (s : State)
  (Hrun : run mounted evs = Some s) :
  shown "Scan Failed" s = occurrences is_rejection evs /\
  shown "Success" s = occurrences reads_tag evs /\
  shown "NFC Not Supported" s = occurrences probe_says_no evs /\
  shown "NFC Not Supported" s <= 1.
Proof.
  destruct (run_ledger _ _ _ Hrun) as (_ & B & C & D & _).
  pose proof (probe_answers_once _ _ _ Hrun) as P. simpl in P.
  change (shown "Scan Failed" mounted) with 0 in B.
  change (shown "Success" mounted) with 0 in C.
  change (shown "NFC Not Supported" mounted) with 0 in D.
  repeat split; lia.
Qed.

Lemma alerts_follow_outcomes_witness :
  run mounted [ProbeRejected] = Some (checkNfcSupport_catch mounted) /\
  shown "NFC Not Supported" (checkNfcSupport_catch mounted) =
    occurrences probe_says_no [ProbeRejected].
Proof.
  split; [reflexivity|].
  exact (proj1 (proj2 (proj2 (alerts_follow_outcomes [ProbeRejected] _
                                eq_refl)))).
Defined.

(** X7: while an attempt is scanning on a supported device, a tag read that
    returns a tag always ends in [Success]: the parser returns a card, the
    [catch] block is not entered, the card is the parser's, no error is
    recorded, and the turn makes one release call. *)
Theorem tag_read_succeeds (evs : list Event) (s s' : State)
  (now : string) (tag : TagEvent)
  (Hrun : run mounted evs = Some s)
  (Hscanning : isScanning s = true)
  (Hsupported : nfcSupported s = true)
  (Hstep : step s (TagRead now (Some tag)) = Some s') :
  phase_of s' = Success /\
  error s' = None /\
  match cardData s' with
  | Some d => parseCardData now tag = Js.Normal d
  | None => False
  end /\
  alerts s' = "Success" :: alerts s /\
  releaseCalls (hw s') = S (releaseCalls (hw s)).
Proof.
  pose proof (run_consistent _ _ _ consistent_mounted Hrun) as [_ Hc _ _].
  destruct (Hc Hscanning) as [He _].
  resumed Hstep. unfold startScan_gotTag.
  destruct (parseCardData_returns now tag) as [d Hd]. rewrite Hd.
  unfold phase_of. simpl. rewrite Hsupported, He. simpl.
  repeat split.
Qed.

Lemma tag_read_succeeds_witness :
  run mounted [PressStart; TechResolved] =
    Some (setSuspended 0 1 (startScan mounted)) /\
  phase_of
    (startScan_gotTag "2024-01-01"
       (Some {| tag_id := Some "04A1B2C3"; tag_techTypes := None;
                tag_type := None |})
       (setSuspended 0 0 (setSuspended 0 1 (startScan mounted)))) = Success.
Proof.
  split; [reflexivity|].
  exact (proj1 (tag_read_succeeds [PressStart; TechResolved]
                  (setSuspended 0 1 (startScan mounted)) _ "2024-01-01"
                  {| tag_id := Some "04A1B2C3"; tag_techTypes := None;
                     tag_type := None |}
                  eq_refl eq_refl eq_refl eq_refl)).
Defined.

(** X8: on a supported device a rejected wait or tag read ends in [Failed];
    the error recorded is the message of the thrown [Error], or
    [Failed to read NFC tag] when what was thrown is not an [Error]. The
    screen shows it in the error box, except that an [Error] with an empty
    message leaves the phase [Failed] with no error box on screen. *)
Theorem rejection_fails_and_shows (s s' : State) (ev : Event) (err : Js.Thrown)
  (Hsupported : nfcSupported s = true)
  (Hev : ev = TechRejected err \/ ev = TagRejected err)
  (Hstep : step s ev = Some s') :
  phase_of s' = Failed /\
  error s' =
    Some match err with
         | Js.ErrorObj message => message
         | Js.NonError => "Failed to read NFC tag"
         end /\
  cardData s' = cardData s /\
  error_container (render s') =
    Some match err with
         | Js.ErrorObj message =>
             if message =? "" then NotRendered JsEmptyString
             else Rendered ("Error: " ++ message)
         | Js.NonError => Rendered "Error: Failed to read NFC tag"
         end.
Proof.
  destruct Hev as [-> | ->]; resumed Hstep;
    unfold phase_of, render; simpl; rewrite Hsupported; simpl;
    (destruct err as [message|]; simpl;
     [destruct (message =? "")|]; repeat split).
Qed.

Lemma rejection_fails_and_shows_witness :
  nfcSupported (startScan mounted) = true /\
  step (startScan mounted) (TechRejected (Js.ErrorObj "")) =
    Some (startScan_rejected (Js.ErrorObj "")
            (setSuspended 0 0 (startScan mounted))) /\
  phase_of (startScan_rejected (Js.ErrorObj "")
              (setSuspended 0 0 (startScan mounted))) = Failed /\
  error_container
    (render (startScan_rejected (Js.ErrorObj "")
               (setSuspended 0 0 (startScan mounted)))) =
    Some (NotRendered JsEmptyString).
Proof.
  pose proof (rejection_fails_and_shows (startScan mounted) _
                (TechRejected (Js.ErrorObj "")) (Js.ErrorObj "")
                eq_refl (or_introl eq_refl) eq_refl) as H.
  split; [reflexivity|]. split; [reflexivity|].
  split; [exact (proj1 H) | exact (proj2 (proj2 (proj2 H)))].
Defined.

(** X9: after a tag with a non-empty identifier was read on a supported
    device, the card box is on screen and its [Tag ID] row shows the whole
    identifier, next to the [Card Number] row that shows its masked form. *)
Theorem card_box_shows_whole_identifier (s s' : State) (now i : string)
  (tag : TagEvent)
  (Hsupported : nfcSupported s = true)
  (Hid : tag_id tag = Some i) (Hnonempty : i <> "")
  (Hstep : step s (TagRead now (Some tag)) = Some s') :
  match card_container (render s') with
  | Some (Rendered view) =>
      dataRows view =
        [ {| dataLabel := "Card Number:";
             dataValue := "**** **** **** " ++ Js.slice i (-4) |};
          {| dataLabel := "Tag ID:"; dataValue := i |};
          {| dataLabel := "Tag Type:";
             dataValue := Js.or_string (tag_type tag) "Unknown" |};
          {| dataLabel := "Scanned At:"; dataValue := now |} ]
  | _ => False
  end.
Proof.
  assert (E : (i =? "") = false) by now apply String.eqb_neq.
  resumed Hstep. unfold startScan_gotTag, parseCardData.
  rewrite Hid, (maskCardNumber_present i Hnonempty). simpl.
  unfold render. simpl. rewrite Hsupported. simpl.
  now rewrite ?E.
Qed.

Lemma card_box_shows_whole_identifier_witness :
  match card_container
          (render (startScan_gotTag "2024-01-01"
                     (Some {| tag_id := Some "04A1B2C3"; tag_techTypes := None;
                              tag_type := None |})
                     (setSuspended 0 0 (setSuspended 0 1 (startScan mounted)))))
  with
  | Some (Rendered view) =>
      dataRows view =
        [ {| dataLabel := "Card Number:";
             dataValue := "**** **** **** " ++ Js.slice "04A1B2C3" (-4) |};
          {| dataLabel := "Tag ID:"; dataValue := "04A1B2C3" |};
          {| dataLabel := "Tag Type:";
             dataValue := Js.or_string None "Unknown" |};
          {| dataLabel := "Scanned At:"; dataValue := "2024-01-01" |} ]
  | _ => False
  end.
Proof.
  exact (card_box_shows_whole_identifier
           (setSuspended 0 1 (startScan mounted)) _ "2024-01-01" "04A1B2C3"
           {| tag_id := Some "04A1B2C3"; tag_techTypes := None;
              tag_type := None |}
           eq_refl eq_refl ltac:(discriminate) eq_refl).
Defined.

(** X10: after a tag was read on a supported device, the card box has a
    [Technologies] row exactly when the tag listed at least one technology,
    and the row shows the names in the tag's order, joined by a comma and a
    space; a tag with no list or an empty list gets no row. *)
Theorem technologies_row_iff_listed (s s' : State) (now : string)
  (tag : TagEvent)
  (Hsupported : nfcSupported s = true)
  (Hstep : step s (TagRead now (Some tag)) = Some s') :
  match card_container (render s') with
  | Some (Rendered view) =>
      technologiesRow view =
        match tag_techTypes tag with
        | Some (name :: names) =>
            Rendered {| dataLabel := "Technologies:";
                        dataValue := String.concat ", " (name :: names) |}
        | Some [] | None => NotRendered JsFalse
        end
  | _ => False
  end.
Proof.
  resumed Hstep. unfold startScan_gotTag.
  destruct (parseCardData_returns now tag) as [d Hd]. rewrite Hd.
  unfold render. simpl. rewrite Hsupported. simpl.
  unfold parseCardData in Hd.
  destruct (maskCardNumber_returns (tag_id tag)) as [masked Hm].
  rewrite Hm in Hd. simpl in Hd. injection Hd as <-. cbn [techTypes].
  destruct (tag_techTypes tag) as [[|name names]|]; reflexivity.
Qed.

Lemma technologies_row_iff_listed_witness :
  match card_container
          (render (startScan_gotTag "2024-01-01"
                     (Some {| tag_id := None;
                              tag_techTypes := Some ["IsoDep"; "NfcA"];
                              tag_type := None |})
                     (setSuspended 0 0 (setSuspended 0 1 (startScan mounted)))))
  with
  | Some (Rendered view) =>
      technologiesRow view =
        Rendered {| dataLabel := "Technologies:";
                    dataValue := String.concat ", " ["IsoDep"; "NfcA"] |}
  | _ => False
  end.
Proof.
  exact (technologies_row_iff_listed
           (setSuspended 0 1 (startScan mounted)) _ "2024-01-01"
           {| tag_id := None; tag_techTypes := Some ["IsoDep"; "NfcA"];
              tag_type := None |}
           eq_refl eq_refl).
Defined.

(** X11: in every reachable state of a supported device, while scanning the
    screen is the scanning indicator with the Cancel button and shows
    neither an error box nor a card box: nothing of an earlier attempt stays
    on screen. *)
Theorem scanning_screen_is_clean (evs : list Event) (s : State)
  (Hrun : run mounted evs = Some s)
  (Hscanning : isScanning s = true)
  (Hsupported : nfcSupported s = true) :
  render s =
    ReaderScreen "NFC Card Reader"
      (ScanningContainer "Hold your credit card near the device..."
         {| buttonText := "Cancel"; onPress := CallCancelScan |})
      (NotRendered JsNull) (NotRendered JsNull) "Important Notes:".
Proof.
  pose proof (run_consistent _ _ _ consistent_mounted Hrun) as [_ Hc _ _].
  destruct (Hc Hscanning) as [He Hd].
  unfold render. now rewrite Hsupported, Hscanning, He, Hd.
Qed.

Lemma scanning_screen_is_clean_witness :
  run mounted
    [PressStart; TechRejected Js.NonError; PressStart] =
    Some (startScan (startScan_rejected Js.NonError
                       (setSuspended 0 0 (startScan mounted)))) /\
  error_container
    (render (startScan (startScan_rejected Js.NonError
                          (setSuspended 0 0 (startScan mounted))))) =
    Some (NotRendered JsNull).
Proof.
  split; [reflexivity|].
  exact (f_equal error_container
           (scanning_screen_is_clean
              [PressStart; TechRejected Js.NonError; PressStart] _
              eq_refl eq_refl eq_refl)).
Defined.

(** X12: whatever the state, the screen carries exactly one button: Go Back
    on the unsupported screen, Cancel while scanning, Start otherwise; so
    Start and Cancel are never on screen together, and a press reaches
    [startScan] or [cancelScan] exactly when the rendered button delivers
    it. *)
Theorem screen_has_one_button (s : State) :
  buttons (render s) =
    [ if negb (nfcSupported s)
      then {| buttonText := "Go Back"; onPress := CallGoBack |}
      else if isScanning s
      then {| buttonText := "Cancel"; onPress := CallCancelScan |}
      else {| buttonText := "Start Scanning"; onPress := CallStartScan |} ] /\
  (offered s PressStart =
     existsb (fun b => match pressed (onPress b) with
                       | Some PressStart => true
                       | _ => false
                       end) (buttons (render s))) /\
  (offered s PressCancel =
     existsb (fun b => match pressed (onPress b) with
                       | Some PressCancel => true
                       | _ => false
                       end) (buttons (render s))).
Proof.
  unfold render. simpl.
  destruct (nfcSupported s), (isScanning s); simpl; repeat split.
Qed.

(** * Properties of unmounting *)

Section Unmounted.

Lemma turn_occurrences_cons (p : Event -> bool) (t : Turn) (ts : list Turn) :
  turn_occurrences p (t :: ts) =
  match t with Loop ev => Nat.b2n (p ev) | Unmount => 0 end
  + turn_occurrences p ts.
Proof.
  unfold turn_occurrences. simpl. destruct t as [ev|]; [|reflexivity].
  now destruct (p ev).
Qed.

(** A promise settling never reaches the acquisition call, and can change
    the radio only by releasing it. *)
Lemma settling_never_acquires (s s' : State) (ev : Event) :
  is_press ev = false -> step s ev = Some s' ->
  acquireCalls (hw s') = acquireCalls (hw s) /\
  (held (hw s) = false -> held (hw s') = false).
Proof.
  intros Hp H. destruct ev; try discriminate Hp; resumed H;
    try (unfold checkNfcSupport_probed; destruct supported);
    try tag_cases now tag; simpl; auto.
Qed.

Lemma dead_step (i i' : Instance) (t : Turn) :
  unmounted i = true -> life_step i t = Some i' ->
  unmounted i' = true /\
  isScanning (cells i') = isScanning (cells i) /\
  nfcSupported (cells i') = nfcSupported (cells i) /\
  cardData (cells i') = cardData (cells i) /\
  error (cells i') = error (cells i) /\
  acquireCalls (hw (cells i')) = acquireCalls (hw (cells i)) /\
  (held (hw (cells i)) = false -> held (hw (cells i')) = false).
Proof.
  intros Hd H. unfold life_step in H. rewrite Hd in H.
  destruct t as [ev|]; [|discriminate].
  destruct (is_press ev) eqn:Hp; [discriminate|].
  destruct (step (cells i) ev) as [s'|] eqn:E; [|discriminate].
  injection H as <-. simpl.
  destruct (settling_never_acquires _ _ _ Hp E) as [Ha Hh]. auto 10.
Qed.

Lemma dead_run (ts : list Turn) : forall i i',
  unmounted i = true -> life_run i ts = Some i' ->
  unmounted i' = true /\
  isScanning (cells i') = isScanning (cells i) /\
  nfcSupported (cells i') = nfcSupported (cells i) /\
  cardData (cells i') = cardData (cells i) /\
  error (cells i') = error (cells i) /\
  acquireCalls (hw (cells i')) = acquireCalls (hw (cells i)) /\
  (held (hw (cells i)) = false -> held (hw (cells i')) = false).
Proof.
  induction ts as [|t ts IH]; intros i i' Hd H; simpl in H.
  - injection H as <-. auto 10.
  - destruct (life_step i t) as [i1|] eqn:E; [|discriminate].
    destruct (dead_step _ _ _ Hd E) as (D1 & S1 & N1 & C1 & E1 & A1 & H1).
    destruct (IH _ _ D1 H) as (D2 & S2 & N2 & C2 & E2 & A2 & H2).
    repeat split; try congruence. auto.
Qed.

(** The cleanup leaves the radio free, and it stays free. *)
Lemma unmounted_radio_free (ts : list Turn) : forall i i',
  (unmounted i = true -> held (hw (cells i)) = false) ->
  life_run i ts = Some i' ->
  unmounted i' = true -> held (hw (cells i')) = false.
Proof.
  induction ts as [|t ts IH]; intros i i' Hi H; simpl in H.
  - now injection H as <-.
  - destruct (life_step i t) as [i1|] eqn:E; [|discriminate].
    apply (IH i1); [|exact H].
    destruct (unmounted i) eqn:Hd.
    + intros _. exact (proj2 (proj2 (proj2 (proj2 (proj2 (proj2
                         (dead_step _ _ _ Hd E)))))) (Hi eq_refl)).
    + unfold life_step in E. rewrite Hd in E. destruct t as [ev|].
      * destruct (step (cells i) ev); [|discriminate].
        injection E as <-. discriminate.
      * injection E as <-. reflexivity.
Qed.

Lemma life_step_ledger (i i' : Instance) (t : Turn) :
  life_step i t = Some i' ->
  releaseCalls (hw (cells i')) + awaitingTech (cells i') + awaitingTag (cells i')
  + acquireCalls (hw (cells i)) + Nat.b2n (unmounted i) =
  acquireCalls (hw (cells i')) + releaseCalls (hw (cells i))
  + awaitingTech (cells i) + awaitingTag (cells i)
  + match t with Loop ev => Nat.b2n (is_cancel ev) | Unmount => 0 end
  + Nat.b2n (unmounted i').
Proof.
  intros H. unfold life_step in H.
  destruct t as [ev|], (unmounted i); try discriminate.
  - destruct (is_press ev); [discriminate|].
    destruct (step (cells i) ev) as [s'|] eqn:E; [|discriminate].
    injection H as <-. simpl.
    destruct (step_ledger _ _ _ E) as (_ & _ & _ & _ & L). lia.
  - destruct (step (cells i) ev) as [s'|] eqn:E; [|discriminate].
    injection H as <-. simpl.
    destruct (step_ledger _ _ _ E) as (_ & _ & _ & _ & L). lia.
  - injection H as <-. simpl. lia.
Qed.

Lemma life_run_ledger (ts : list Turn) : forall i i',
  life_run i ts = Some i' ->
  releaseCalls (hw (cells i')) + awaitingTech (cells i') + awaitingTag (cells i')
  + acquireCalls (hw (cells i)) + Nat.b2n (unmounted i) =
  acquireCalls (hw (cells i')) + releaseCalls (hw (cells i))
  + awaitingTech (cells i) + awaitingTag (cells i)
  + turn_occurrences is_cancel ts + Nat.b2n (unmounted i').
Proof.
  induction ts as [|t ts IH]; intros i i' H; simpl in H.
  - injection H as <-. unfold turn_occurrences. simpl. lia.
  - destruct (life_step i t) as [i1|] eqn:E; [|discriminate].
    rewrite turn_occurrences_cons.
    pose proof (life_step_ledger _ _ _ E) as L1.
    pose proof (IH _ _ H) as L2. lia.
Qed.

End Unmounted.

(** X13: once the component is unmounted the radio is free and stays free,
    no acquisition call is made any more, and none of the four state cells
    changes, whatever promises settle afterwards. *)
Theorem unmounted_is_inert (ts0 : list Turn) (i : Instance)
  (Hrun : life_run fresh ts0 = Some i)
  (Hunmounted : unmounted i = true) :
  held (hw (cells i)) = false /\
  forall ts i', life_run i ts = Some i' ->
    unmounted i' = true /\
    held (hw (cells i')) = false /\
    acquireCalls (hw (cells i')) = acquireCalls (hw (cells i)) /\
    isScanning (cells i') = isScanning (cells i) /\
    nfcSupported (cells i') = nfcSupported (cells i) /\
    cardData (cells i') = cardData (cells i) /\
    error (cells i') = error (cells i).
Proof.
  assert (Hfree : held (hw (cells i)) = false).
  { apply (unmounted_radio_free ts0 fresh i); [discriminate | exact Hrun |
      exact Hunmounted]. }
  split; [exact Hfree|].
  intros ts i' H.
  destruct (dead_run _ _ _ Hunmounted H) as (D & S & N & C & E & A & Hh).
  repeat split; auto.
Qed.

Lemma unmounted_is_inert_witness :
  life_run fresh [Loop PressStart; Unmount] =
    Some {| cells := cleanUpNfc (startScan mounted); unmounted := true |} /\
  held (hw (cleanUpNfc (startScan mounted))) = false.
Proof.
  split; [reflexivity|].
  exact (proj1 (unmounted_is_inert [Loop PressStart; Unmount]
                  {| cells := cleanUpNfc (startScan mounted);
                     unmounted := true |} eq_refl eq_refl)).
Defined.

(** X14: over the whole life of the component, unmounting included, the
    release calls plus the [startScan] calls still suspended equal the
    acquisition calls plus the cancel presses plus one for the unmount
    cleanup: the cleanup releases once whether or not the radio was
    reserved, and a [startScan] that was suspended at the unmount still
    makes its own release call when it ends. *)
Theorem lifetime_release_calls_accounted (ts : list Turn) (i : Instance)
  (Hrun : life_run fresh ts = Some i) :
  releaseCalls (hw (cells i)) + awaitingTech (cells i) + awaitingTag (cells i) =
  acquireCalls (hw (cells i)) + turn_occurrences is_cancel ts
  + Nat.b2n (unmounted i).
Proof.
  pose proof (life_run_ledger _ _ _ Hrun) as L. simpl in L. lia.
Qed.

Lemma lifetime_release_calls_accounted_witness :
  life_run fresh [Loop PressStart; Unmount; Loop (TechRejected Js.NonError)] =
    Some {| cells :=
              dropping_updates (cleanUpNfc (startScan mounted))
                (startScan_rejected Js.NonError
                   (setSuspended 0 0 (cleanUpNfc (startScan mounted))));
            unmounted := true |} /\
  releaseCalls
    (hw (dropping_updates (cleanUpNfc (startScan mounted))
           (startScan_rejected Js.NonError
              (setSuspended 0 0 (cleanUpNfc (startScan mounted)))))) + 0 + 0 =
  acquireCalls
    (hw (dropping_updates (cleanUpNfc (startScan mounted))
           (startScan_rejected Js.NonError
              (setSuspended 0 0 (cleanUpNfc (startScan mounted))))))
  + turn_occurrences is_cancel
      [Loop PressStart; Unmount; Loop (TechRejected Js.NonError)]
  + Nat.b2n true.
Proof.
  split; [reflexivity|].
  exact (lifetime_release_calls_accounted
           [Loop PressStart; Unmount; Loop (TechRejected Js.NonError)] _
           eq_refl).
Defined.

(** * What keeps and what changes the state cells *)

(** X15: a recorded error and a recorded card are removed by nothing but a
    press of Start on a device that counts as supported: a cancel, an answer
    of the support check and the end of an attempt, however it ends, leave a
    recorded error recorded and a recorded card recorded. *)
Theorem only_start_clears (s s' : State) (ev : Event)
  (Hstep : step s ev = Some s') :
  (error s <> None -> error s' = None ->
     ev = PressStart /\ nfcSupported s = true) /\
  (cardData s <> None -> cardData s' = None ->
     ev = PressStart /\ nfcSupported s = true).
Proof.
  destruct ev; resumed Hstep;
    try (unfold checkNfcSupport_probed; destruct supported);
    try (unfold startScan; destruct (nfcSupported s));
    try (tag_cases now tag);
    simpl; split; intros Hsome Hnone; auto; try discriminate;
    contradiction.
Qed.

Lemma only_start_clears_witness :
  step (startScan_rejected Js.NonError (setSuspended 0 0 (startScan mounted)))
    PressCancel =
    Some (cancelScan (startScan_rejected Js.NonError
                        (setSuspended 0 0 (startScan mounted)))) /\
  error (cancelScan (startScan_rejected Js.NonError
                       (setSuspended 0 0 (startScan mounted)))) <> None.
Proof.
  split; [reflexivity|].
  intros Hnone.
  destruct (proj1 (only_start_clears
                     (startScan_rejected Js.NonError
                        (setSuspended 0 0 (startScan mounted)))
                     _ PressCancel eq_refl)
              ltac:(discriminate) Hnone) as [Hev _].
  discriminate Hev.
Defined.

(** X16: [nfcSupported] is changed by the support check only: no press and
    no outcome of a scanning attempt, failures included, ever changes it. *)
Theorem only_support_check_sets_supported (s s' : State) (ev : Event)
  (Hstep : step s ev = Some s')
  (Hchanged : nfcSupported s' <> nfcSupported s) :
  (exists supported, ev = ProbeResolved supported) \/
  ev = ProbeRejected \/ ev = InitRejected.
Proof.
  destruct ev; eauto; resumed Hstep; exfalso; apply Hchanged;
    try reflexivity.
  - unfold startScan. destruct (nfcSupported s) eqn:Hn; simpl; congruence.
  - tag_cases now tag; reflexivity.
Qed.

Lemma only_support_check_sets_supported_witness :
  step (setSupport AwaitingInit mounted) InitRejected =
    Some (checkNfcSupport_catch (setSupport AwaitingInit mounted)) /\
  nfcSupported (checkNfcSupport_catch (setSupport AwaitingInit mounted)) <>
    nfcSupported (setSupport AwaitingInit mounted) /\
  ((exists supported, InitRejected = ProbeResolved supported) \/
   InitRejected = ProbeRejected \/ InitRejected = InitRejected).
Proof.
  split; [reflexivity|]. split; [discriminate|].
  exact (only_support_check_sets_supported
           (setSupport AwaitingInit mounted) _ InitRejected eq_refl
           ltac:(discriminate)).
Defined.

(** X17: in every reachable state, when [isScanning] is raised at least one
    [startScan] call is suspended: the scanning indicator is never left on
    screen without a pending call whose [finally] will lower it. *)
Theorem scanning_is_never_orphaned (evs : list Event) (s : State)
  (Hrun : run mounted evs = Some s)
  (Hscanning : isScanning s = true) :
  0 < awaitingTech s + awaitingTag s /\
  exists ev s', ends_attempt ev = true /\ is_press ev = false /\
    step s ev = Some s' /\ isScanning s' = false.
Proof.
  assert (Hpending : 0 < awaitingTech s + awaitingTag s).
  { apply (scanning_has_suspended evs mounted s); auto. discriminate. }
  split; [exact Hpending|].
  destruct (awaitingTech s) as [|n] eqn:Et.
  - destruct (awaitingTag s) as [|m] eqn:Eg; [simpl in Hpending; lia|].
    exists (TagRejected Js.NonError). eexists.
    split; [reflexivity|]. split; [reflexivity|].
    simpl. rewrite Eg. split; reflexivity.
  - exists (TechRejected Js.NonError). eexists.
    split; [reflexivity|]. split; [reflexivity|].
    simpl. rewrite Et. split; reflexivity.
Qed.

Lemma scanning_is_never_orphaned_witness :
  run mounted [PressStart; PressCancel; PressStart] =
    Some (startScan (cancelScan (startScan mounted))) /\
  0 < awaitingTech (startScan (cancelScan (startScan mounted))) +
      awaitingTag (startScan (cancelScan (startScan mounted))).
Proof.
  split; [reflexivity|].
  exact (proj1 (scanning_is_never_orphaned
                  [PressStart; PressCancel; PressStart] _ eq_refl eq_refl)).
Defined.
